(** * Motion supervisor of the ESP32 stepper test firmware (src/main.cpp)

    A shallow embedding of the supervisor task [StepTask] and of the
    helpers it calls, followed by the properties of the motion state.

    - The globals [g_userFreq] ... [g_dirNext] form the record
      [MotionState]; [uint32_t]/[uint8_t] values are [Z], [bool] is [bool].
    - The FastAccelStepper object is an external library: it is an
      interface (type class [FastAccelStepper]) over an abstract engine
      state, so every result holds for any engine behaviour.
    - Side effects are threaded through a small state monad over [World]:
      the globals, the [stepper] pointer (an [option]), and the trace of
      calls made to the engine and to the GPIO pins.  Each trace entry
      also records the globals and the [isRunning] answer at the instant
      of the call, which is what the safety properties talk about. *)

From Stdlib Require Import ZArith List Bool Lia.
From Stdlib Require Ascii String.
Import ListNotations.
Import Ascii.AsciiSyntax String.StringSyntax.
Delimit Scope char_scope with char.
Delimit Scope string_scope with string.
Open Scope Z_scope.

(** ** Constants and plain data *)

Definition PIN_STEP : Z := 25.
Definition PIN_DIR  : Z := 26.
Definition PIN_EN   : Z := 27.
Definition PIN_AL   : Z := 34.

Definition FREQ_MAX : Z := 400000.

Inductive Level := LOW | HIGH.
Inductive PinModeT := OUTPUT | INPUT.

Inductive CmdType :=
  CMD_START | CMD_STOP | CMD_FREQ | CMD_DIR | CMD_EN | CMD_RAMP | CMD_STATUS | CMD_ACCEL.

Record Cmd := mkCmd { type : CmdType; a : Z; b : Z }.

(** Wrap-around of the unsigned C types. *)
Definition u32 (v : Z) : Z := v mod 2 ^ 32.
Definition u64 (v : Z) : Z := v mod 2 ^ 64.

Definition clamp_u32 (v lo hi : Z) : Z :=
  if v <? lo then lo else if v >? hi then hi else v.

(** [x ? 1 : 0] on an integer. *)
Definition to01 (x : Z) : Z := if x =? 0 then 0 else 1.

(** [readAlarm]: the level of PIN_AL compared with HIGH. *)
Definition readAlarm (pin_al : Level) : bool :=
  match pin_al with HIGH => true | LOW => false end.

(** The globals of main.cpp. *)
Record MotionState := mkMotionState {
  g_userFreq : Z;
  g_accel    : Z;
  g_dir      : Z;
  g_en       : Z;
  g_alarm    : bool;
  g_runReq   : bool;
  g_dirPend  : bool;
  g_dirNext  : Z
}.

Definition set_userFreq (v : Z) (g : MotionState) : MotionState :=
  mkMotionState v (g_accel g) (g_dir g) (g_en g) (g_alarm g) (g_runReq g) (g_dirPend g) (g_dirNext g).
Definition set_accel (v : Z) (g : MotionState) : MotionState :=
  mkMotionState (g_userFreq g) v (g_dir g) (g_en g) (g_alarm g) (g_runReq g) (g_dirPend g) (g_dirNext g).
Definition set_dir (v : Z) (g : MotionState) : MotionState :=
  mkMotionState (g_userFreq g) (g_accel g) v (g_en g) (g_alarm g) (g_runReq g) (g_dirPend g) (g_dirNext g).
Definition set_en (v : Z) (g : MotionState) : MotionState :=
  mkMotionState (g_userFreq g) (g_accel g) (g_dir g) v (g_alarm g) (g_runReq g) (g_dirPend g) (g_dirNext g).
Definition set_alarm (v : bool) (g : MotionState) : MotionState :=
  mkMotionState (g_userFreq g) (g_accel g) (g_dir g) (g_en g) v (g_runReq g) (g_dirPend g) (g_dirNext g).
Definition set_runReq (v : bool) (g : MotionState) : MotionState :=
  mkMotionState (g_userFreq g) (g_accel g) (g_dir g) (g_en g) (g_alarm g) v (g_dirPend g) (g_dirNext g).
Definition set_dirPend (v : bool) (g : MotionState) : MotionState :=
  mkMotionState (g_userFreq g) (g_accel g) (g_dir g) (g_en g) (g_alarm g) (g_runReq g) v (g_dirNext g).
Definition set_dirNext (v : Z) (g : MotionState) : MotionState :=
  mkMotionState (g_userFreq g) (g_accel g) (g_dir g) (g_en g) (g_alarm g) (g_runReq g) (g_dirPend g) v.

(** The static initialisers of the globals. *)
Definition globals0 : MotionState :=
  mkMotionState 10000 200000 0 1 false false false 0.

(** ** The engine interface and the trace of calls *)

(** The methods of FastAccelStepper that main.cpp uses. *)
Class FastAccelStepper (E : Type) := {
  isRunning       : E -> bool;
  runForward      : E -> E;
  runBackward     : E -> E;
  stopMove        : E -> E;
  setSpeedInHz    : Z -> E -> E;
  setAcceleration : Z -> E -> E;
  setDirectionPin : Z -> E -> E;
  setEnablePin    : Z -> E -> E;
  setAutoEnable   : bool -> E -> E
}.

(** Calls leaving the supervisor: GPIO adapter and engine. *)
Inductive Call :=
| PinMode (pin : Z) (m : PinModeT)
| DigitalWrite (pin : Z) (lvl : Level)
| RunForward
| RunBackward
| StopMove
| SetSpeedInHz (hz : Z)
| SetAcceleration (acc : Z)
| SetDirectionPin (pin : Z)
| SetEnablePin (pin : Z)
| SetAutoEnable (on : bool).

(** A trace entry: the call, the globals when it was made, and what the
    engine reported ([stepper ? stepper->isRunning() : false]) just
    before it. *)
Record Logged := mkLogged {
  call       : Call;
  at_state   : MotionState;
  at_running : bool
}.

Definition is_run (c : Call) : bool :=
  match c with RunForward | RunBackward => true | _ => false end.

Definition is_dir_write (c : Call) : bool :=
  match c with DigitalWrite pin _ => pin =? PIN_DIR | _ => false end.

Section Supervisor.

Context {E : Type} {eng : FastAccelStepper E}.

(** Globals, the [stepper] pointer and the trace, most recent call first. *)
Record World := mkWorld {
  globals : MotionState;
  stepper : option E;
  trace   : list Logged
}.

Definition reports_running (w : World) : bool :=
  match stepper w with Some e => isRunning e | None => false end.

(** *** State monad *)

Definition M (A : Type) : Type := World -> A * World.

Definition ret {A} (x : A) : M A := fun w => (x, w).

Definition bind {A B} (m : M A) (k : A -> M B) : M B :=
  fun w => let (x, w') := m w in k x w'.

Definition exec {A} (m : M A) (w : World) : World := snd (m w).

Notation "x <- m ;; k" := (bind m (fun x => k))
  (at level 61, m at next level, right associativity).
Notation "m ;;; k" := (bind m (fun _ => k))
  (at level 61, right associativity).

Definition load {A} (f : MotionState -> A) : M A :=
  fun w => (f (globals w), w).

Definition store (upd : MotionState -> MotionState) : M unit :=
  fun w => (tt, mkWorld (upd (globals w)) (stepper w) (trace w)).

Definition logged (c : Call) (w : World) : Logged :=
  mkLogged c (globals w) (reports_running w).

(** [stepper != nullptr] *)
Definition attached : M bool :=
  fun w => (match stepper w with Some _ => true | None => false end, w).

(** [stepper && stepper->isRunning()] *)
Definition running : M bool := fun w => (reports_running w, w).

(** A method call [stepper->f(...)].  Every call site in main.cpp is
    behind a null check; on a null pointer the model does nothing. *)
Definition invoke (c : Call) (f : E -> E) : M unit :=
  fun w => match stepper w with
           | Some e => (tt, mkWorld (globals w) (Some (f e)) (logged c w :: trace w))
           | None => (tt, w)
           end.

Definition gpio (c : Call) : M unit :=
  fun w => (tt, mkWorld (globals w) (stepper w) (logged c w :: trace w)).

Definition digitalWrite (pin : Z) (lvl : Level) : M unit := gpio (DigitalWrite pin lvl).
Definition pinMode (pin : Z) (m : PinModeT) : M unit := gpio (PinMode pin m).

(** *** The helpers of main.cpp *)

Definition applyEnablePin : M unit :=
  en <- load g_en ;;
  digitalWrite PIN_EN (if en =? 0 then HIGH else LOW).

Definition applyDirPin : M unit :=
  d <- load g_dir ;;
  digitalWrite PIN_DIR (if d =? 0 then LOW else HIGH).

Definition applyParamsToStepper : M unit :=
  s <- attached ;;
  if negb s then ret tt else
  f <- load g_userFreq ;;
  invoke (SetSpeedInHz (clamp_u32 f 1 FREQ_MAX)) (setSpeedInHz (clamp_u32 f 1 FREQ_MAX)) ;;;
  acc <- load g_accel ;;
  invoke (SetAcceleration (clamp_u32 acc 1 2000000)) (setAcceleration (clamp_u32 acc 1 2000000)).

Definition applyRunDirectionToUpdateSpeed : M unit :=
  s <- attached ;;
  if negb s then ret tt else
  r <- load g_runReq ;;
  if negb r then ret tt else
  d <- load g_dir ;;
  if d =? 0 then invoke RunForward runForward
  else invoke RunBackward runBackward.

Definition requestStart : M unit :=
  s <- attached ;;
  en <- load g_en ;;
  al <- load g_alarm ;;
  if negb s || (en =? 0) || al then ret tt else
  applyParamsToStepper ;;;
  store (set_runReq true) ;;;
  applyRunDirectionToUpdateSpeed.

Definition requestStop : M unit :=
  store (set_runReq false) ;;;
  s <- attached ;;
  if s then invoke StopMove stopMove else ret tt.

Definition requestDir (newDir : Z) : M unit :=
  let newDir := to01 newDir in
  d <- load g_dir ;;
  if newDir =? d then ret tt else
  store (set_dirNext newDir) ;;;
  r <- running ;;
  if r then
    store (set_dirPend true) ;;;
    invoke StopMove stopMove
  else
    store (set_dir newDir) ;;;
    applyDirPin ;;;
    rr <- load g_runReq ;;
    if rr then requestStart else ret tt.

(** *** The body of StepTask *)

(** The acceleration a CMD_RAMP derives:
    [(diff == 0) ? g_accel : (uint32_t)((uint64_t)diff * 1000ULL / ms)]. *)
Definition ramp_acc (target ms cur acc0 : Z) : Z :=
  let diff := if target >? cur then u32 (target - cur) else u32 (cur - target) in
  if diff =? 0 then acc0 else u32 (u64 (diff * 1000) / ms).

(** One [case] of the [switch (cmd.type)]. *)
Definition dispatch (cmd : Cmd) : M unit :=
  match type cmd with
  | CMD_START => requestStart
  | CMD_STOP => requestStop
  | CMD_FREQ =>
      store (set_userFreq (clamp_u32 (a cmd) 1 FREQ_MAX)) ;;;
      applyParamsToStepper ;;;
      r <- running ;;
      if r then applyRunDirectionToUpdateSpeed else ret tt
  | CMD_ACCEL =>
      store (set_accel (clamp_u32 (a cmd) 1 2000000)) ;;;
      applyParamsToStepper ;;;
      r <- running ;;
      if r then applyRunDirectionToUpdateSpeed else ret tt
  | CMD_DIR => requestDir (to01 (a cmd))
  | CMD_EN =>
      store (set_en (to01 (a cmd))) ;;;
      applyEnablePin ;;;
      en <- load g_en ;;
      if en =? 0 then requestStop
      else
        rr <- load g_runReq ;;
        al <- load g_alarm ;;
        if rr && negb al then requestStart else ret tt
  | CMD_RAMP =>
      let target := clamp_u32 (a cmd) 1 FREQ_MAX in
      let ms := clamp_u32 (b cmd) 50 60000 in
      cur <- load g_userFreq ;;
      acc0 <- load g_accel ;;
      let acc := ramp_acc target ms cur acc0 in
      store (set_userFreq target) ;;;
      store (set_accel (clamp_u32 acc 1 2000000)) ;;;
      applyParamsToStepper ;;;
      r <- running ;;
      (if r then applyRunDirectionToUpdateSpeed else ret tt) ;;;
      en <- load g_en ;;
      al <- load g_alarm ;;
      if negb (en =? 0) && negb al then requestStart else ret tt
  | CMD_STATUS => ret tt
  end.

(** [while (xQueueReceive(qCmd, &cmd, 0) == pdTRUE) switch ...]: the
    commands found in the queue, oldest first. *)
Fixpoint drain (q : list Cmd) : M unit :=
  match q with
  | [] => ret tt
  | cmd :: q' => dispatch cmd ;;; drain q'
  end.

(** The body of [if (al != g_alarm)] for a sampled level [al]. *)
Definition alarmSample (al : bool) : M unit :=
  cur <- load g_alarm ;;
  if Bool.eqb al cur then ret tt else
  store (set_alarm al) ;;;
  if al then requestStop
  else
    rr <- load g_runReq ;;
    en <- load g_en ;;
    if rr && negb (en =? 0) then requestStart else ret tt.

(** The 10 ms alarm poll; returns the new [lastPollMs]. *)
Definition pollAlarm (lastPollMs now : Z) (pin_al : Level) : M Z :=
  if u32 (now - lastPollMs) >=? 10 then
    alarmSample (readAlarm pin_al) ;;; ret now
  else ret lastPollMs.

(** The deferred direction change at the end of the loop body. *)
Definition dirTick : M unit :=
  p <- load g_dirPend ;;
  s <- attached ;;
  r <- running ;;
  if p && s && negb r then
    store (set_dirPend false) ;;;
    nx <- load g_dirNext ;;
    store (set_dir nx) ;;;
    applyDirPin ;;;
    rr <- load g_runReq ;;
    en <- load g_en ;;
    al <- load g_alarm ;;
    if rr && negb (en =? 0) && negb al then requestStart else ret tt
  else ret tt.

(** One iteration of [while (true)] in StepTask: [q] is what the queue
    holds, [now] is [millis()], [pin_al] the level of the alarm pin. *)
Definition StepTask_iter (lastPollMs : Z) (q : list Cmd) (now : Z) (pin_al : Level) : M Z :=
  drain q ;;;
  l <- pollAlarm lastPollMs now pin_al ;;
  dirTick ;;;
  ret l.

(** [setup()], up to the creation of the tasks.  [connected] is the
    result of [engine.stepperConnectToPin(PIN_STEP)]; the result is
    [false] when setup halts in [while (true) delay(1000)].  The serial
    port, the queue and the WiFi server are not part of the world. *)
Definition setup (connected : option E) : M bool :=
  pinMode PIN_STEP OUTPUT ;;;
  pinMode PIN_DIR OUTPUT ;;;
  pinMode PIN_EN OUTPUT ;;;
  pinMode PIN_AL INPUT ;;;
  digitalWrite PIN_STEP LOW ;;;
  store (set_dir 0) ;;;
  applyDirPin ;;;
  store (set_en 1) ;;;
  applyEnablePin ;;;
  (fun w => (tt, mkWorld (globals w) connected (trace w))) ;;;
  s <- attached ;;
  if negb s then ret false else
  invoke (SetDirectionPin PIN_DIR) (setDirectionPin PIN_DIR) ;;;
  invoke (SetEnablePin PIN_EN) (setEnablePin PIN_EN) ;;;
  invoke (SetAutoEnable true) (setAutoEnable true) ;;;
  applyParamsToStepper ;;;
  ret true.

(** The world before [setup]: static initialisers, null [stepper]. *)
Definition world0 : World := mkWorld globals0 None [].

(** The world in which StepTask starts, for an engine [e] returned by
    [stepperConnectToPin]. *)
Definition boot (e : E) : World := exec (setup (Some e)) world0.

End Supervisor.

Arguments World : clear implicits.
Arguments M : clear implicits.

(** ** Executions of the supervisor *)

Section Executions.

Context {E : Type} {eng : FastAccelStepper E}.

(** What can happen to the world once StepTask runs: a command is taken
    from the queue, the alarm pin is sampled, the end-of-loop direction
    check runs, or the engine changes state on its own (it is driven by
    its own interrupts). *)
Inductive step : World E -> World E -> Prop :=
| step_cmd (w : World E) (cmd : Cmd) :
    step w (exec (dispatch cmd) w)
| step_alarm (w : World E) (al : bool) :
    step w (exec (alarmSample al) w)
| step_dirTick (w : World E) :
    step w (exec dirTick w)
| step_engine (w : World E) (e e' : E) :
    stepper w = Some e ->
    step w (mkWorld (globals w) (Some e') (trace w)).

Inductive reachable : World E -> Prop :=
| reach_boot (e : E) : reachable (boot e)
| reach_step (w w' : World E) : reachable w -> step w w' -> reachable w'.

(** What every call in the trace must satisfy: a run call was made with
    the alarm inactive and the driver enabled, and the direction pin was
    written while the engine reported not running. *)
Definition entry_ok (en : Logged) : Prop :=
  (is_run (call en) = true ->
     g_alarm (at_state en) = false /\ g_en (at_state en) <> 0) /\
  (is_dir_write (call en) = true -> at_running en = false).

Definition bit (x : Z) : Prop := x = 0 \/ x = 1.

(** The invariant of the supervisor. *)
Record wf (w : World E) : Prop := mk_wf {
  wf_freq    : 1 <= g_userFreq (globals w) <= FREQ_MAX;
  wf_accel   : 1 <= g_accel (globals w) <= 2000000;
  wf_dir     : bit (g_dir (globals w));
  wf_en      : bit (g_en (globals w));
  wf_dirNext : bit (g_dirNext (globals w));
  wf_runReq  : g_runReq (globals w) = true ->
               g_en (globals w) <> 0 /\ g_alarm (globals w) = false;
  wf_stepper : stepper w <> None;
  wf_trace   : Forall entry_ok (trace w)
}.

(** Steps during which a deferred direction change stays deferred: no
    further CMD_DIR is taken from the queue, and the end-of-loop check
    runs only while the engine still reports running. *)
Inductive wait_step : World E -> World E -> Prop :=
| wait_cmd (w : World E) (cmd : Cmd) :
    type cmd <> CMD_DIR -> wait_step w (exec (dispatch cmd) w)
| wait_alarm (w : World E) (al : bool) :
    wait_step w (exec (alarmSample al) w)
| wait_dirTick (w : World E) :
    reports_running w = true -> wait_step w (exec dirTick w)
| wait_engine (w : World E) (e e' : E) :
    stepper w = Some e ->
    wait_step w (mkWorld (globals w) (Some e') (trace w)).

Inductive waits : World E -> World E -> Prop :=
| waits_refl (w : World E) : waits w w
| waits_step (w w' w'' : World E) : waits w w' -> wait_step w' w'' -> waits w w''.

(** [since old P t]: the trace [t] extends [old], and every call made
    since [old] satisfies [P]. *)
Inductive since (old : list Logged) (P : Logged -> Prop) : list Logged -> Prop :=
| since_now : since old P old
| since_call (en : Logged) (t : list Logged) :
    P en -> since old P t -> since old P (en :: t).

Definition not_dir_write (en : Logged) : Prop := is_dir_write (call en) = false.

(** Steps before the end-of-loop check can apply a deferred direction
    change: any command (a further CMD_DIR included), alarm sample or
    engine change, and the check itself only while the engine still
    reports running. *)
Inductive defer_step : World E -> World E -> Prop :=
| defer_cmd (w : World E) (cmd : Cmd) :
    defer_step w (exec (dispatch cmd) w)
| defer_alarm (w : World E) (al : bool) :
    defer_step w (exec (alarmSample al) w)
| defer_dirTick (w : World E) :
    reports_running w = true -> defer_step w (exec dirTick w)
| defer_engine (w : World E) (e e' : E) :
    stepper w = Some e ->
    defer_step w (mkWorld (globals w) (Some e') (trace w)).

Inductive defers : World E -> World E -> Prop :=
| defers_refl (w : World E) : defers w w
| defers_step (w w' w'' : World E) : defers w w' -> defer_step w' w'' -> defers w w''.

(** A write of the direction pin was made with the engine reporting not
    running. *)
Definition dir_write_at_rest (en : Logged) : Prop :=
  is_dir_write (call en) = true -> at_running en = false.

Definition dir_level (d : Z) : Level := if d =? 0 then LOW else HIGH.

Definition run_call (d : Z) : Call := if d =? 0 then RunForward else RunBackward.

End Executions.

(** The rate of section 4.4 of the specification in its own words,
    [round(delta * 1000 / durationMs)]: the integer nearest to the
    quotient, halves rounded up. *)
Definition round_div (n d : Z) : Z := (2 * n + d) / (2 * d).

Definition spec_ramp_rate (delta durationMs : Z) : Z :=
  clamp_u32 (round_div (delta * 1000) durationMs) 1 2000000.

(** ** A simple engine for running the supervisor on concrete inputs

    [stopMove] starts a deceleration: the engine keeps reporting running
    until [sim_halt], which stands for the end of the ramp. *)
Record SimStepper := mkSim {
  sim_running  : bool;
  sim_stopping : bool;
  sim_backward : bool;
  sim_speed    : Z;
  sim_accel    : Z
}.

Definition sim_idle : SimStepper := mkSim false false false 0 0.

Definition sim_halt (e : SimStepper) : SimStepper :=
  mkSim false false (sim_backward e) (sim_speed e) (sim_accel e).

#[export] Instance SimEngine : FastAccelStepper SimStepper := {
  isRunning e := sim_running e;
  runForward e := mkSim true false false (sim_speed e) (sim_accel e);
  runBackward e := mkSim true false true (sim_speed e) (sim_accel e);
  stopMove e := mkSim (sim_running e) (sim_running e) (sim_backward e) (sim_speed e) (sim_accel e);
  setSpeedInHz hz e := mkSim (sim_running e) (sim_stopping e) (sim_backward e) hz (sim_accel e);
  setAcceleration acc e := mkSim (sim_running e) (sim_stopping e) (sim_backward e) (sim_speed e) acc;
  setDirectionPin _ e := e;
  setEnablePin _ e := e;
  setAutoEnable _ e := e
}.

(** The engine of a world replaced by its state after the ramp ended. *)
Definition halted (w : World SimStepper) : World SimStepper :=
  mkWorld (globals w) (option_map sim_halt (stepper w)) (trace w).

Definition run (cmd : Cmd) (w : World SimStepper) : World SimStepper := exec (dispatch cmd) w.

Definition sim_boot : World SimStepper := boot sim_idle.

(** Concrete worlds used below. *)
Definition cmd_start : Cmd := mkCmd CMD_START 0 0.
Definition cmd_stop : Cmd := mkCmd CMD_STOP 0 0.

(** After boot and a Start: running forward at the default 10000 Hz. *)
Definition w_started : World SimStepper := run cmd_start sim_boot.

(** After boot and an alarm sample that reads active. *)
Definition w_alarmed : World SimStepper := exec (alarmSample true) sim_boot.

(** Running forward, then a request for the other direction: the change
    is deferred and the engine is decelerating. *)
Definition w_turning : World SimStepper := run (mkCmd CMD_DIR 1 0) w_started.

(** The engine states in [w_started] and in [w_turning]. *)
Definition e_started : SimStepper := mkSim true false false 10000 200000.
Definition e_turning : SimStepper := mkSim true true false 10000 200000.

(** The deceleration of [w_turning] has ended; the deferred direction
    change is then applied by the end-of-loop check. *)
Definition w_turning_stopped : World SimStepper := halted w_turning.
Definition w_turned : World SimStepper := exec dirTick w_turning_stopped.

(** The run call made by the Start of [w_started], and the write of the
    direction pin made in [w_turned]. *)
Definition ran_forward : Logged :=
  mkLogged RunForward (set_runReq true globals0) false.
Definition wrote_dir : Logged :=
  mkLogged (DigitalWrite PIN_DIR HIGH)
           (set_dir 1 (set_dirPend false (globals w_turning))) false.

(** The alarm trips while running; the driver is disabled while running. *)
Definition w_tripped : World SimStepper := exec (alarmSample true) w_started.
Definition w_disabled : World SimStepper := run (mkCmd CMD_EN 0 0) w_started.

(** The engine state in [sim_boot], and the call by which the Start of
    [w_started] set the speed. *)
Definition e_boot : SimStepper := mkSim false false false 10000 200000.
Definition set_speed : Logged := mkLogged (SetSpeedInHz 10000) globals0 false.

(** A queue without Start and Ramp, and one without SetEnable. *)
Definition q_tuning : list Cmd :=
  [mkCmd CMD_FREQ 20000 0; mkCmd CMD_ACCEL 50000 0; mkCmd CMD_DIR 1 0; mkCmd CMD_EN 1 0].
Definition q_speed : list Cmd := [mkCmd CMD_FREQ 20000 0; mkCmd CMD_DIR 1 0].

(** The deferred change of [w_turning] is overtaken: a Stop, the engine
    comes to rest, then SetDirection(1) and SetDirection(0) arrive before
    the end-of-loop check runs. *)
Definition w_turning_cancelled : World SimStepper := run cmd_stop w_turning.
Definition w_cancelled_rest : World SimStepper := halted w_turning_cancelled.
Definition w_rerouted : World SimStepper :=
  run (mkCmd CMD_DIR 0 0) (run (mkCmd CMD_DIR 1 0) w_cancelled_rest).

(** A hundred characters without a line end. *)
Definition long_input : list Ascii.ascii := repeat "a"%char 100.

(** ** Producers: the command queue, the web handlers, the console *)

(** The queue [qCmd]: [None] until [xQueueCreate(16, sizeof(Cmd))] in
    [setup], then the queued commands, oldest first. *)
Definition QUEUE_LENGTH : nat := 16.

(** [xQueueSend(q, &c, 0) == pdTRUE]: with no wait, the item is appended
    when a slot is free and refused otherwise. *)
Definition xQueueSend (q : list Cmd) (c : Cmd) : bool * list Cmd :=
  if (List.length q <? QUEUE_LENGTH)%nat then (true, q ++ [c]) else (false, q).

Definition qSend (qCmd : option (list Cmd)) (t : CmdType) (x y : Z)
  : bool * option (list Cmd) :=
  match qCmd with
  | None => (false, None)
  | Some q => let (sent, q') := xQueueSend q (mkCmd t x y) in (sent, Some q')
  end.

(** Characters of the console line. *)
Definition is_blank (c : Ascii.ascii) : bool :=
  Ascii.eqb c " "%char || Ascii.eqb c "009"%char.

(** The loop [while ( *p == ' ' || *p == '\t') p++]. *)
Fixpoint skip_blanks (p : String.string) : String.string :=
  match p with
  | String.String c p' => if is_blank c then skip_blanks p' else p
  | String.EmptyString => String.EmptyString
  end.

(** The C string that starts a buffer: its characters up to the first NUL. *)
Fixpoint cstr (l : String.string) : String.string :=
  match l with
  | String.String c l' =>
      if Ascii.eqb c Ascii.zero then String.EmptyString else String.String c (cstr l')
  | String.EmptyString => String.EmptyString
  end.

(** [p + n] on a C string. *)
Fixpoint str_drop (n : nat) (p : String.string) : String.string :=
  match n, p with
  | S n', String.String _ p' => str_drop n' p'
  | _, _ => p
  end.

(** The two arguments of [ramp]: [a] runs to the first blank, which is
    overwritten by NUL; [b] starts after the blanks that follow. *)
Fixpoint split_token (s : String.string) : String.string * String.string :=
  match s with
  | String.String c s' =>
      if is_blank c then (String.EmptyString, skip_blanks s')
      else let (tok, rest) := split_token s' in (String.String c tok, rest)
  | String.EmptyString => (String.EmptyString, String.EmptyString)
  end.

(** What the console task does besides reading: echo a character, print
    a line, print the status line (the globals; its format is not
    modelled), and submit a command with [xQueueSend(.., portMAX_DELAY)]. *)
Inductive ConsoleOut :=
| Echo (ch : Ascii.ascii)
| Println (s : String.string)
| PrintStatus
| Send (c : Cmd).

(** A character that is neither NUL nor a line end, and the characters
    received when a line is typed and ended with a newline. *)
Definition ordinary (c : Ascii.ascii) : Prop :=
  c <> Ascii.zero /\ c <> "013"%char /\ c <> "010"%char.

Definition typed (line : String.string) : list Ascii.ascii :=
  String.list_ascii_of_string line ++ ["010"%char].

Definition is_send (o : ConsoleOut) : bool :=
  match o with Send _ => true | _ => false end.


Section Producers.

(** [strtoul(s, nullptr, 10)] of the C library, on the characters of a C
    string. *)
Variable strtoul : String.string -> Z.

(** [(uint32_t)strtoul(s, nullptr, 10)] *)
Definition parse_u32 (s : String.string) : Z := u32 (strtoul s).

(** The handling of one complete line of ConsoleTask: [buf] holds the
    [n] characters stored in [line] when the newline arrives. *)
Definition console_line (buf : String.string) : list ConsoleOut :=
  let p := skip_blanks (cstr buf) in
  match p with
  | String.EmptyString => []
  | String.String c0 rest =>
      if String.eqb p "start"%string then [Send (mkCmd CMD_START 0 0); Println "ok"%string]
      else if String.eqb p "stop"%string then [Send (mkCmd CMD_STOP 0 0); Println "ok"%string]
      else if String.eqb p "status"%string then [PrintStatus]
      else if Ascii.eqb c0 "f"%char &&
              match rest with
              | String.String c1 _ => is_blank c1
              | String.EmptyString => false
              end
      then [Send (mkCmd CMD_FREQ (parse_u32 (str_drop 2 p)) 0); Println "ok"%string]
      else if String.prefix "acc "%string p
      then [Send (mkCmd CMD_ACCEL (parse_u32 (str_drop 4 p)) 0); Println "ok"%string]
      else if String.prefix "dir "%string p
      then [Send (mkCmd CMD_DIR (parse_u32 (str_drop 4 p)) 0); Println "ok"%string]
      else if String.prefix "en "%string p
      then [Send (mkCmd CMD_EN (parse_u32 (str_drop 3 p)) 0); Println "ok"%string]
      else if String.prefix "ramp "%string p
      then let (x, y) := split_token (str_drop 5 p) in
           [Send (mkCmd CMD_RAMP (parse_u32 x) (parse_u32 y)); Println "ok"%string]
      else [Println "ERR"%string]
  end.

(** One character read from the serial port: echoed; a carriage return
    is skipped, a newline ends the line, anything else is stored while
    [n < sizeof(line) - 1]. *)
Definition console_char (ch : Ascii.ascii) (line : String.string)
  : String.string * list ConsoleOut :=
  if Ascii.eqb ch "013"%char then (line, [Echo ch])
  else if Ascii.eqb ch "010"%char then (String.EmptyString, Echo ch :: console_line line)
  else if (String.length line <? 95)%nat
       then (String.append line (String.String ch String.EmptyString), [Echo ch])
       else (line, [Echo ch]).

(** [while (Serial.available())] over the characters received. *)
Fixpoint console_feed (input : list Ascii.ascii) (line : String.string)
  : String.string * list ConsoleOut :=
  match input with
  | [] => (line, [])
  | ch :: input' =>
      let (line', out) := console_char ch line in
      let (line'', out') := console_feed input' line' in
      (line'', out ++ out')
  end.

(** [server.hasArg(name) ? (uint32_t)strtoul(server.arg(name).c_str(), nullptr, 10) : 0] *)
Definition arg_u32 (arg : option String.string) : Z :=
  match arg with
  | Some s => parse_u32 s
  | None => 0
  end.

(** The handlers of the web API; the result is whether "ok" is sent. *)
Definition handleStart (qCmd : option (list Cmd)) := qSend qCmd CMD_START 0 0.
Definition handleStop (qCmd : option (list Cmd)) := qSend qCmd CMD_STOP 0 0.

Definition handleSetF (hz : option String.string) (qCmd : option (list Cmd)) :=
  qSend qCmd CMD_FREQ (clamp_u32 (arg_u32 hz) 1 FREQ_MAX) 0.

Definition handleSetAcc (hz : option String.string) (qCmd : option (list Cmd)) :=
  qSend qCmd CMD_ACCEL (clamp_u32 (arg_u32 hz) 1 2000000) 0.

Definition handleSetDir (v : option String.string) (qCmd : option (list Cmd)) :=
  qSend qCmd CMD_DIR (to01 (arg_u32 v)) 0.

Definition handleSetEn (v : option String.string) (qCmd : option (list Cmd)) :=
  qSend qCmd CMD_EN (to01 (arg_u32 v)) 0.

Definition handleRamp (hz ms : option String.string) (qCmd : option (list Cmd)) :=
  qSend qCmd CMD_RAMP (clamp_u32 (arg_u32 hz) 1 FREQ_MAX)
                      (clamp_u32 (arg_u32 ms) 50 60000).

End Producers.

(** The requests of the web API, as the routes of [wifiInit] map them to
    the handlers. *)
Inductive Request :=
| ApiStart
| ApiStop
| ApiF (hz : option String.string)
| ApiAcc (hz : option String.string)
| ApiDir (v : option String.string)
| ApiEn (v : option String.string)
| ApiRamp (hz ms : option String.string).

Definition serve (strtoul : String.string -> Z) (r : Request) (qCmd : option (list Cmd))
  : bool * option (list Cmd) :=
  match r with
  | ApiStart => handleStart qCmd
  | ApiStop => handleStop qCmd
  | ApiF hz => handleSetF strtoul hz qCmd
  | ApiAcc hz => handleSetAcc strtoul hz qCmd
  | ApiDir v => handleSetDir strtoul v qCmd
  | ApiEn v => handleSetEn strtoul v qCmd
  | ApiRamp hz ms => handleRamp strtoul hz ms qCmd
  end.

(** The ranges of the payloads, per command. *)
Definition payload_in_range (c : Cmd) : Prop :=
  match type c with
  | CMD_FREQ => 1 <= a c <= FREQ_MAX
  | CMD_ACCEL => 1 <= a c <= 2000000
  | CMD_DIR | CMD_EN => a c = 0 \/ a c = 1
  | CMD_RAMP => 1 <= a c <= FREQ_MAX /\ 50 <= b c <= 60000
  | CMD_START | CMD_STOP | CMD_STATUS => True
  end.

(** A [strtoul(s, nullptr, 10)] for concrete runs, with the 32-bit
    [unsigned long] of the target: white space is skipped, an optional
    sign is read, then the decimal digits.  Without digits the result is
    0, a value above ULONG_MAX gives ULONG_MAX, and a minus sign negates
    modulo 2^32. *)
Definition is_space (c : Ascii.ascii) : bool :=
  let n := Z.of_nat (Ascii.nat_of_ascii c) in
  (n =? 32) || ((9 <=? n) && (n <=? 13)).

Fixpoint skip_spaces (s : String.string) : String.string :=
  match s with
  | String.String c s' => if is_space c then skip_spaces s' else s
  | String.EmptyString => String.EmptyString
  end.

Definition digit_of (c : Ascii.ascii) : option Z :=
  let n := Z.of_nat (Ascii.nat_of_ascii c) in
  if (48 <=? n) && (n <=? 57) then Some (n - 48) else None.

Fixpoint dec_digits (acc : Z) (s : String.string) : Z :=
  match s with
  | String.String c s' =>
      match digit_of c with
      | Some d => dec_digits (10 * acc + d) s'
      | None => acc
      end
  | String.EmptyString => acc
  end.

Definition dec_strtoul (s : String.string) : Z :=
  let s1 := skip_spaces s in
  let signed :=
    match s1 with
    | String.String c s2 =>
        if Ascii.eqb c "-"%char then (true, s2)
        else if Ascii.eqb c "+"%char then (false, s2)
        else (false, s1)
    | String.EmptyString => (false, s1)
    end in
  let v := dec_digits 0 (snd signed) in
  if v >? 2 ^ 32 - 1 then 2 ^ 32 - 1
  else if fst signed then (2 ^ 32 - v) mod 2 ^ 32
  else v.

(** ** Further observations on the trace *)

(** The parameters the engine accepts. *)
Definition param_ok (en : Logged) : Prop :=
  match call en with
  | SetSpeedInHz hz => 1 <= hz <= FREQ_MAX
  | SetAcceleration acc => 1 <= acc <= 2000000
  | _ => True
  end.

Definition not_run (en : Logged) : Prop := is_run (call en) = false.

(** The level most recently written to a pin by [digitalWrite]. *)
Fixpoint last_write (pin : Z) (t : list Logged) : option Level :=
  match t with
  | [] => None
  | en :: t' =>
      match call en with
      | DigitalWrite p lvl => if p =? pin then Some lvl else last_write pin t'
      | _ => last_write pin t'
      end
  end.

Definition en_level (en : Z) : Level := if en =? 0 then HIGH else LOW.

(** The levels last written to the enable and direction pins agree with
    [g_en] (the pin is active LOW) and [g_dir]. *)
Definition pins_mirror {E : Type} (w : World E) : Prop :=
  last_write PIN_EN (trace w) = Some (en_level (g_en (globals w))) /\
  last_write PIN_DIR (trace w) = Some (dir_level (g_dir (globals w))).

(** Commands that can start motion. *)
Definition starts_motion (t : CmdType) : bool :=
  match t with CMD_START | CMD_RAMP => true | _ => false end.

(** ** Arithmetic of the clamps *)

Lemma clamp_u32_bounds (v lo hi : Z) : lo <= hi -> lo <= clamp_u32 v lo hi <= hi.
Proof.
  intros Hle. unfold clamp_u32.
  destruct (v <? lo) eqn:Hlo; [lia|].
  destruct (v >? hi) eqn:Hhi; [lia|].
  apply Z.ltb_ge in Hlo. rewrite Z.gtb_ltb in Hhi. apply Z.ltb_ge in Hhi. lia.
Qed.

Lemma clamp_u32_max_min (v lo hi : Z) :
  lo <= hi -> clamp_u32 v lo hi = Z.max lo (Z.min v hi).
Proof.
  intros Hle. unfold clamp_u32.
  destruct (v <? lo) eqn:Hlo.
  - apply Z.ltb_lt in Hlo. lia.
  - apply Z.ltb_ge in Hlo. rewrite Z.gtb_ltb.
    destruct (hi <? v) eqn:Hhi.
    + apply Z.ltb_lt in Hhi. lia.
    + apply Z.ltb_ge in Hhi. lia.
Qed.

Lemma clamp_u32_id (v lo hi : Z) : lo <= v <= hi -> clamp_u32 v lo hi = v.
Proof.
  intros Hv. rewrite clamp_u32_max_min by lia. lia.
Qed.

Lemma to01_bit (x : Z) : x = 0 /\ to01 x = 0 \/ x <> 0 /\ to01 x = 1.
Proof.
  unfold to01. destruct (x =? 0) eqn:Hx.
  - apply Z.eqb_eq in Hx. auto.
  - apply Z.eqb_neq in Hx. auto.
Qed.

Lemma to01_idem (x : Z) : to01 (to01 x) = to01 x.
Proof. destruct (to01_bit x) as [[_ ->] | [_ ->]]; reflexivity. Qed.

(** With both frequencies in range the 32- and 64-bit wrap-arounds of
    CMD_RAMP never trigger: the derived rate is the truncated quotient. *)
Lemma ramp_acc_exact (target ms cur acc0 : Z) :
  1 <= target <= FREQ_MAX -> 1 <= cur <= FREQ_MAX -> 50 <= ms <= 60000 ->
  ramp_acc target ms cur acc0 =
  if Z.abs (target - cur) =? 0 then acc0 else Z.abs (target - cur) * 1000 / ms.
Proof.
  unfold FREQ_MAX, ramp_acc, u32, u64. intros Ht Hc Hms.
  assert (Hdiff : (if target >? cur then (target - cur) mod 2 ^ 32
                   else (cur - target) mod 2 ^ 32) = Z.abs (target - cur)).
  { rewrite Z.gtb_ltb. destruct (cur <? target) eqn:Hlt.
    - apply Z.ltb_lt in Hlt. rewrite Z.mod_small by lia. lia.
    - apply Z.ltb_ge in Hlt. rewrite Z.mod_small by lia. lia. }
  rewrite Hdiff.
  destruct (Z.abs (target - cur) =? 0); [reflexivity|].
  assert (Hd : 0 <= Z.abs (target - cur) < 400000) by lia.
  rewrite (Z.mod_small (Z.abs (target - cur) * 1000)) by lia.
  apply Z.mod_small. split.
  - apply Z.div_pos; lia.
  - apply Z.div_lt_upper_bound; lia.
Qed.

Lemma to01_is_bit (x : Z) : bit (to01 x).
Proof. unfold bit. destruct (to01_bit x) as [[_ ->] | [_ ->]]; auto. Qed.

(** ** Symbolic execution of the monadic code *)

Ltac code :=
  cbv beta iota zeta delta
    [exec dispatch drain requestStart requestStop requestDir
     applyParamsToStepper applyRunDirectionToUpdateSpeed applyDirPin
     applyEnablePin alarmSample dirTick setup boot world0 globals0
     bind ret load store attached running invoke gpio digitalWrite pinMode
     logged reports_running
     set_userFreq set_accel set_dir set_en set_alarm set_runReq set_dirPend set_dirNext
     globals stepper trace type a b
     g_userFreq g_accel g_dir g_en g_alarm g_runReq g_dirPend g_dirNext
     negb andb orb Bool.eqb fst snd].

Ltac split_atom c :=
  match c with
  | context [?x =? ?y] => let H := fresh "Hc" in destruct (x =? y) eqn:H
  | context [isRunning ?e] => let H := fresh "Hc" in destruct (isRunning e) eqn:H
  | context [?v] => is_var v; match type of v with bool => destruct v end
  end.

Ltac split_if :=
  match goal with
  | |- context [if ?c then _ else _] => split_atom c
  end.

Ltac eqb_facts :=
  repeat match goal with
  | H : (_ =? _) = true |- _ => apply Z.eqb_eq in H
  | H : (_ =? _) = false |- _ => apply Z.eqb_neq in H
  end.

Ltac entry_done :=
  split; cbn [call at_state at_running is_run is_dir_write g_alarm g_en];
  intros; try discriminate;
  try (split; [reflexivity || tauto | assumption || lia || tauto]);
  try assumption; try reflexivity.

Ltac wf_done :=
  eqb_facts;
  constructor;
  cbn [globals stepper trace
       g_userFreq g_accel g_dir g_en g_alarm g_runReq g_dirPend g_dirNext];
  [ try apply clamp_u32_bounds; unfold FREQ_MAX in *; lia
  | try apply clamp_u32_bounds; lia
  | auto using to01_is_bit
  | auto using to01_is_bit
  | auto using to01_is_bit
  | intros; try discriminate; try tauto;
    try (split; [assumption || lia | reflexivity || tauto])
  | discriminate
  | repeat (apply Forall_cons; [entry_done|]); assumption ].

(** ** The invariant holds in every reachable world *)

Section Invariant.

Context {E : Type} {eng : FastAccelStepper E}.

Lemma exec_bind {A B} (m : M E A) (k : A -> M E B) (w : World E) :
  exec (bind m k) w = exec (k (fst (m w))) (exec m w).
Proof. unfold exec, bind. destruct (m w). reflexivity. Qed.

Lemma wf_dispatch (w : World E) (cmd : Cmd) : wf w -> wf (exec (dispatch cmd) w).
Proof.
  intros Hwf.
  destruct w as [[f ac d en al rr dp nx] [e|] t];
    destruct Hwf as [Hf Ha Hd He Hn Hr Hs Ht]; [|simpl in Hs; congruence].
  simpl in *. destruct cmd as [[] x y]; code.
  all: repeat (split_if; code).
  all: wf_done.
Qed.

Lemma wf_alarmSample (w : World E) (al : bool) : wf w -> wf (exec (alarmSample al) w).
Proof.
  intros Hwf.
  destruct w as [[f ac d en al0 rr dp nx] [e|] t];
    destruct Hwf as [Hf Ha Hd He Hn Hr Hs Ht]; [|simpl in Hs; congruence].
  simpl in *. code.
  all: repeat (split_if; code).
  all: wf_done.
Qed.

Lemma wf_dirTick (w : World E) : wf w -> wf (exec dirTick w).
Proof.
  intros Hwf.
  destruct w as [[f ac d en al rr dp nx] [e|] t];
    destruct Hwf as [Hf Ha Hd He Hn Hr Hs Ht]; [|simpl in Hs; congruence].
  simpl in *. code.
  all: repeat (split_if; code).
  all: wf_done.
Qed.

Lemma wf_boot (e : E) : wf (boot e).
Proof.
  code. constructor; cbn [globals stepper trace
       g_userFreq g_accel g_dir g_en g_alarm g_runReq g_dirPend g_dirNext].
  1-2: unfold FREQ_MAX; lia.
  1-3: unfold bit; auto.
  - discriminate.
  - discriminate.
  - repeat (apply Forall_cons; [entry_done|]). constructor.
Qed.

Lemma wf_step (w w' : World E) : wf w -> step w w' -> wf w'.
Proof.
  intros Hwf Hstep. destruct Hstep as [w cmd | w al | w | w e e' He].
  - now apply wf_dispatch.
  - now apply wf_alarmSample.
  - now apply wf_dirTick.
  - destruct Hwf. constructor; simpl; auto. discriminate.
Qed.

Lemma reachable_wf (w : World E) : reachable w -> wf w.
Proof.
  induction 1 as [e | w w' _ IH Hstep].
  - apply wf_boot.
  - exact (wf_step w w' IH Hstep).
Qed.

(** The loop body of StepTask only takes steps of the relation. *)
Lemma reachable_drain (q : list Cmd) (w : World E) :
  reachable w -> reachable (exec (drain q) w).
Proof.
  revert w. induction q as [|cmd q IH]; intros w Hw.
  - exact Hw.
  - cbn [drain]. rewrite exec_bind. apply IH.
    eapply reach_step; [exact Hw | apply step_cmd].
Qed.

Lemma reachable_iter (lastPollMs now : Z) (q : list Cmd) (pin_al : Level) (w : World E) :
  reachable w -> reachable (exec (StepTask_iter lastPollMs q now pin_al) w).
Proof.
  intros Hw. unfold StepTask_iter.
  rewrite exec_bind, exec_bind, exec_bind.
  change (exec (ret ?x) ?w') with w'.
  eapply reach_step; [|apply step_dirTick].
  unfold pollAlarm. destruct (u32 (now - lastPollMs) >=? 10).
  - rewrite exec_bind. change (exec (ret ?x) ?w') with w'.
    eapply reach_step; [|apply step_alarm]. now apply reachable_drain.
  - now apply reachable_drain.
Qed.

End Invariant.

(** ** Properties of the commands *)

Section Commands.

Context {E : Type} {eng : FastAccelStepper E}.

(** C1 (defect in the code).  What the 10 ms alarm poll does on a rising
    edge: with the previous level inactive and PIN_AL read HIGH it sets
    [g_alarm], calls [stopMove] on the engine, and - through
    [requestStop] - resets [g_runReq] to false, whatever it was.  The
    run intent therefore does not survive the alarm. *)
Theorem alarm_rising_edge_clears_runReq
    (w : World E) (e : E) (lastPollMs now : Z)
    (Hs : stepper w = Some e)
    (Hal : g_alarm (globals w) = false)
    (Hdue : 10 <= u32 (now - lastPollMs)) :
  let w' := exec (pollAlarm lastPollMs now HIGH) w in
  g_alarm (globals w') = true /\
  g_runReq (globals w') = false /\
  globals w' = set_runReq false (set_alarm true (globals w)) /\
  stepper w' = Some (stopMove e) /\
  map call (trace w') = StopMove :: map call (trace w).
Proof.
  destruct w as [[f ac d en al rr dp nx] s t]. simpl in Hs, Hal. subst s al.
  unfold pollAlarm. apply Z.geb_le in Hdue. rewrite Hdue.
  code. cbn [readAlarm map call]. repeat split.
Qed.


(** C2 (amended).  With the alarm active a Start command does nothing at
    all: no call reaches the engine and every global, [g_runReq]
    included, keeps its value. *)
Theorem start_under_alarm_is_noop (w : World E) (x y : Z)
    (Hal : g_alarm (globals w) = true) :
  exec (dispatch (mkCmd CMD_START x y)) w = w.
Proof.
  destruct w as [[f ac d en al rr dp nx] s t]. simpl in Hal. subst al.
  code. destruct s; code; [destruct (en =? 0)|]; reflexivity.
Qed.

(** C3 (defect in the code).  SetEnable(0) drives PIN_EN HIGH, stops the
    engine and resets [g_runReq] to false; a later SetEnable with a
    non-zero argument, whatever the engine did in between, only drives
    PIN_EN LOW: no run call is made and the engine is left as it was. *)
Theorem disable_clears_runReq
    (w : World E) (e e' : E) (x y y' : Z)
    (Hs : stepper w = Some e)
    (Hx : x <> 0) :
  let w1 := exec (dispatch (mkCmd CMD_EN 0 y)) w in
  let w2 := exec (dispatch (mkCmd CMD_EN x y'))
                 (mkWorld (globals w1) (Some e') (trace w1)) in
  g_en (globals w1) = 0 /\
  g_runReq (globals w1) = false /\
  stepper w1 = Some (stopMove e) /\
  map call (trace w1) = StopMove :: DigitalWrite PIN_EN HIGH :: map call (trace w) /\
  g_en (globals w2) = 1 /\
  g_runReq (globals w2) = false /\
  stepper w2 = Some e' /\
  map call (trace w2) = DigitalWrite PIN_EN LOW :: map call (trace w1).
Proof.
  destruct w as [[f ac d en al rr dp nx] s t]. simpl in Hs. subst s.
  code. unfold to01. cbn [Z.eqb]. code.
  apply Z.eqb_neq in Hx. rewrite Hx. code. cbn [Z.eqb]. code.
  cbn [map call]. repeat split.
Qed.

(** X5 (supporting C3).  In a reachable world with the driver disabled the
    run intent is always false, so enabling never calls [requestStart]:
    it stores 1 and drives PIN_EN LOW, nothing else. *)
Lemma reenable_never_resumes (w : World E) (x y : Z) :
  reachable w -> g_en (globals w) = 0 -> x <> 0 ->
  let w' := exec (dispatch (mkCmd CMD_EN x y)) w in
  globals w' = set_en 1 (globals w) /\
  stepper w' = stepper w /\
  map call (trace w') = DigitalWrite PIN_EN LOW :: map call (trace w).
Proof.
  intros Hr Hen Hx. destruct (reachable_wf w Hr) as [_ _ _ _ _ Hrr _ _].
  destruct w as [[f ac d en al rr dp nx] s t]. simpl in *. subst en.
  destruct rr.
  - destruct Hrr as [Habs _]; [reflexivity | congruence].
  - code. unfold to01. apply Z.eqb_neq in Hx. rewrite Hx. code.
    cbn [Z.eqb]. code. cbn [map call]. repeat split.
Qed.

(** C6.  After SetFrequency(f) the stored frequency [g_userFreq] is f
    clamped to [1, 400000], and after SetAcceleration(a) the stored
    acceleration [g_accel] is a clamped to [1, 2000000]; each command
    leaves every other global at its value. *)
Theorem set_frequency_acceleration_clamped (w : World E) (v y : Z) :
  let wf := exec (dispatch (mkCmd CMD_FREQ v y)) w in
  let wa := exec (dispatch (mkCmd CMD_ACCEL v y)) w in
  (g_userFreq (globals wf) = Z.max 1 (Z.min v 400000) /\
   g_accel (globals wf) = g_accel (globals w) /\
   g_dir (globals wf) = g_dir (globals w) /\
   g_en (globals wf) = g_en (globals w) /\
   g_alarm (globals wf) = g_alarm (globals w) /\
   g_runReq (globals wf) = g_runReq (globals w) /\
   g_dirPend (globals wf) = g_dirPend (globals w) /\
   g_dirNext (globals wf) = g_dirNext (globals w)) /\
  (g_accel (globals wa) = Z.max 1 (Z.min v 2000000) /\
   g_userFreq (globals wa) = g_userFreq (globals w) /\
   g_dir (globals wa) = g_dir (globals w) /\
   g_en (globals wa) = g_en (globals w) /\
   g_alarm (globals wa) = g_alarm (globals w) /\
   g_runReq (globals wa) = g_runReq (globals w) /\
   g_dirPend (globals wa) = g_dirPend (globals w) /\
   g_dirNext (globals wa) = g_dirNext (globals w)).
Proof.
  cbv zeta. rewrite <- !clamp_u32_max_min by lia.
  destruct w as [[f ac d en al rr dp nx] s t].
  split; code; destruct s; code; repeat (split_if; code);
    cbn [g_userFreq g_accel g_dir g_en g_alarm g_runReq g_dirPend g_dirNext];
    unfold FREQ_MAX; repeat split.
Qed.

(** C7 (amended).  After [setup] the driver is enabled ([g_en] is 1 and
    PIN_EN is driven LOW, its active level, and never HIGH), the
    direction is forward, no run is requested, no alarm is latched and
    no direction change is pending - whether or not the engine could be
    connected. *)
Theorem setup_defaults (connected : option E) :
  let w := exec (setup connected) world0 in
  g_en (globals w) = 1 /\
  g_dir (globals w) = 0 /\
  g_runReq (globals w) = false /\
  g_alarm (globals w) = false /\
  g_dirPend (globals w) = false /\
  In (DigitalWrite PIN_EN LOW) (map call (trace w)) /\
  ~ In (DigitalWrite PIN_EN HIGH) (map call (trace w)).
Proof.
  destruct connected as [e|]; code; cbn [map call In];
    repeat split; try tauto;
    intros Hin; repeat (destruct Hin as [Hin | Hin]; [discriminate|]); exact Hin.
Qed.

(** C8.  Stop is idempotent on the globals, and SetDirection with the
    direction already applied changes nothing in any world - globals,
    engine and trace are untouched, so [g_dirPend] is not set and no
    stop is issued, also while a direction change is pending. *)
Theorem stop_idempotent_same_direction_noop (w : World E) (x y : Z)
    (Hd : to01 x = g_dir (globals w)) :
  globals (exec (dispatch cmd_stop) (exec (dispatch cmd_stop) w)) =
    globals (exec (dispatch cmd_stop) w) /\
  exec (dispatch (mkCmd CMD_DIR x y)) w = w.
Proof.
  destruct w as [[f ac d en al rr dp nx] s t]. simpl in Hd. subst d.
  split.
  - destruct s; code; reflexivity.
  - code. rewrite !to01_idem, Z.eqb_refl. reflexivity.
Qed.

End Commands.

(** ** The ramp command *)

Section Ramp.

Context {E : Type} {eng : FastAccelStepper E}.

(** C5 (amended).  In a reachable world, Ramp(x, y) with target the
    clamp of x to [1, 400000], ms the clamp of y to [50, 60000] and
    delta = |target - g_userFreq|: the target is stored; the
    acceleration is unchanged when delta is 0 and otherwise is the
    quotient delta * 1000 / ms rounded towards zero, clamped to
    [1, 2000000]; when enabled and not alarmed [g_runReq] becomes true
    and the last call made is the run call in the applied direction;
    otherwise [g_runReq] keeps its value.  Nothing else changes. *)
Theorem ramp_rate_truncates (w : World E) (x y : Z) (Hr : reachable w) :
  let target := Z.max 1 (Z.min x 400000) in
  let ms := Z.max 50 (Z.min y 60000) in
  let delta := Z.abs (target - g_userFreq (globals w)) in
  let w' := exec (dispatch (mkCmd CMD_RAMP x y)) w in
  g_userFreq (globals w') = target /\
  g_accel (globals w') =
    (if delta =? 0 then g_accel (globals w)
     else Z.max 1 (Z.min (delta * 1000 / ms) 2000000)) /\
  (g_en (globals w) <> 0 -> g_alarm (globals w) = false ->
     g_runReq (globals w') = true /\
     exists t', map call (trace w') = run_call (g_dir (globals w)) :: t') /\
  (g_en (globals w) = 0 \/ g_alarm (globals w) = true ->
     g_runReq (globals w') = g_runReq (globals w)) /\
  g_dir (globals w') = g_dir (globals w) /\
  g_en (globals w') = g_en (globals w) /\
  g_alarm (globals w') = g_alarm (globals w) /\
  g_dirPend (globals w') = g_dirPend (globals w) /\
  g_dirNext (globals w') = g_dirNext (globals w).
Proof.
  intros target ms delta.
  destruct (reachable_wf w Hr) as [Hf Ha _ _ _ Hrr Hs _].
  destruct w as [[f ac d en al rr dp nx] [e|] t]; [|simpl in Hs; congruence].
  simpl in Hf, Ha, Hrr, target, ms, delta |- *.
  assert (Ht : clamp_u32 x 1 FREQ_MAX = target)
    by (unfold FREQ_MAX; apply clamp_u32_max_min; lia).
  assert (Hm : clamp_u32 y 50 60000 = ms) by (apply clamp_u32_max_min; lia).
  assert (Hacc : clamp_u32 (ramp_acc target ms f ac) 1 2000000 =
                 if delta =? 0 then ac
                 else Z.max 1 (Z.min (delta * 1000 / ms) 2000000)).
  { rewrite ramp_acc_exact by (unfold FREQ_MAX in *; lia).
    fold delta. destruct (delta =? 0).
    - apply clamp_u32_id. lia.
    - apply clamp_u32_max_min. lia. }
  code. rewrite Ht, Hm, Hacc. clearbody target ms delta. clear Ht Hm Hacc.
  unfold run_call.
  repeat (split_if; code); cbn [map call]; eqb_facts.
  all: repeat split; intros; try reflexivity; try (intuition congruence); eauto.
Qed.

End Ramp.

(** ** Safety of run calls and of the direction pin *)

Section Safety.

Context {E : Type} {eng : FastAccelStepper E}.

(** C9.  In every reachable world, every run call in the trace
    ([runForward] or [runBackward], whichever command, alarm sample or
    direction check made it) was made with [g_alarm] false and [g_en]
    non-zero. *)
Theorem no_run_call_when_alarmed_or_disabled
    (w : World E) (en : Logged)
    (Hr : reachable w)
    (Hin : In en (trace w))
    (Hrun : is_run (call en) = true) :
  g_alarm (at_state en) = false /\ g_en (at_state en) <> 0.
Proof.
  destruct (reachable_wf w Hr) as [_ _ _ _ _ _ _ Ht].
  rewrite Forall_forall in Ht. destruct (Ht en Hin) as [Hok _]. now apply Hok.
Qed.

(** C10.  While a direction change is pending, the engine reports
    running and [g_runReq] is true, SetFrequency and SetAcceleration
    re-issue the run call in the direction still applied ([g_dir]); the
    pending change stays pending and the direction pin is not written. *)
Theorem speed_change_reruns_old_direction_while_pending
    (w : World E) (e : E) (t : CmdType) (x y : Z)
    (Hs : stepper w = Some e)
    (Hp : g_dirPend (globals w) = true)
    (Hrr : g_runReq (globals w) = true)
    (Hrun : forall hz acc, isRunning (setAcceleration acc (setSpeedInHz hz e)) = true)
    (Ht : t = CMD_FREQ \/ t = CMD_ACCEL) :
  let w' := exec (dispatch (mkCmd t x y)) w in
  (exists hz acc,
     map call (trace w') =
       run_call (g_dir (globals w)) :: SetAcceleration acc :: SetSpeedInHz hz
         :: map call (trace w) /\
     stepper w' =
       Some ((if g_dir (globals w) =? 0 then runForward else runBackward)
               (setAcceleration acc (setSpeedInHz hz e)))) /\
  g_dir (globals w') = g_dir (globals w) /\
  g_dirPend (globals w') = true /\
  g_dirNext (globals w') = g_dirNext (globals w).
Proof.
  destruct w as [[f ac d en al rr dp nx] s tr]. simpl in Hs, Hp, Hrr. subst s dp rr.
  unfold run_call.
  destruct Ht as [-> | ->]; code; rewrite Hrun; code;
    destruct (d =? 0); cbn [map call]; repeat split; eauto.
Qed.

Lemma since_trans (P : Logged -> Prop) (t0 t1 t2 : list Logged) :
  since t0 P t1 -> since t1 P t2 -> since t0 P t2.
Proof.
  intros H01 H12. induction H12 as [|en t Hen _ IH].
  - exact H01.
  - now constructor.
Qed.

Ltac since_done :=
  repeat (apply since_call; [reflexivity|]); apply since_now.

(** A waiting step keeps the deferred change deferred. *)
Lemma wait_step_keeps (w w' : World E) :
  wait_step w w' ->
  g_dirPend (globals w) = true -> stepper w <> None ->
  g_dirPend (globals w') = true /\
  g_dirNext (globals w') = g_dirNext (globals w) /\
  g_dir (globals w') = g_dir (globals w) /\
  stepper w' <> None /\
  since (trace w) not_dir_write (trace w').
Proof.
  intros Hstep Hp Hs.
  destruct Hstep as [w cmd Hty | w al | w Hrun | w e e' He].
  - destruct w as [[f ac d en al rr dp nx] [e|] t]; [|simpl in Hs; congruence].
    simpl in Hp. subst dp.
    destruct cmd as [[] x y]; try (simpl in Hty; congruence); code.
    all: repeat (split_if; code).
    all: repeat split; try discriminate; since_done.
  - destruct w as [[f ac d en al0 rr dp nx] [e|] t]; [|simpl in Hs; congruence].
    simpl in Hp. subst dp. code.
    all: repeat (split_if; code).
    all: repeat split; try discriminate; since_done.
  - destruct w as [[f ac d en al rr dp nx] [e|] t]; [|simpl in Hs; congruence].
    simpl in Hp. subst dp. unfold reports_running in Hrun. simpl in Hrun. code. rewrite Hrun. code.
    repeat split; try discriminate; since_done.
  - simpl. repeat split; auto; try discriminate. apply since_now.
Qed.

Lemma waits_keeps (w w' : World E) :
  waits w w' ->
  g_dirPend (globals w) = true -> stepper w <> None ->
  g_dirPend (globals w') = true /\
  g_dirNext (globals w') = g_dirNext (globals w) /\
  g_dir (globals w') = g_dir (globals w) /\
  stepper w' <> None /\
  since (trace w) not_dir_write (trace w').
Proof.
  intros Hw Hp Hs. induction Hw as [w | w w' w'' _ IH Hstep].
  - repeat split; auto. apply since_now.
  - destruct (IH Hp Hs) as (Hp' & Hn' & Hd' & Hs' & Ht').
    destruct (wait_step_keeps w' w'' Hstep Hp' Hs') as (Hp2 & Hn2 & Hd2 & Hs2 & Ht2).
    repeat split; try congruence. exact (since_trans _ _ _ _ Ht' Ht2).
Qed.

Ltac at_rest_done :=
  repeat (apply since_call;
          [unfold dir_write_at_rest; cbn [call at_running is_dir_write];
           intros; assumption || discriminate || reflexivity|]);
  apply since_now.

(** A step that cannot apply the deferred change keeps it pending, and
    whatever it writes to the direction pin it writes with the engine
    at rest. *)
Lemma defer_step_keeps (w w' : World E) :
  defer_step w w' ->
  g_dirPend (globals w) = true -> stepper w <> None ->
  g_dirPend (globals w') = true /\
  stepper w' <> None /\
  since (trace w) dir_write_at_rest (trace w').
Proof.
  intros Hstep Hp Hs.
  destruct Hstep as [w cmd | w al | w Hrun | w e e' He].
  - destruct w as [[f ac d en al rr dp nx] [e|] t]; [|simpl in Hs; congruence].
    simpl in Hp. subst dp.
    destruct cmd as [[] x y]; code.
    all: repeat (split_if; code).
    all: repeat split; try discriminate; at_rest_done.
  - destruct w as [[f ac d en al0 rr dp nx] [e|] t]; [|simpl in Hs; congruence].
    simpl in Hp. subst dp. code.
    all: repeat (split_if; code).
    all: repeat split; try discriminate; at_rest_done.
  - destruct w as [[f ac d en al rr dp nx] [e|] t]; [|simpl in Hs; congruence].
    simpl in Hp. subst dp. unfold reports_running in Hrun. simpl in Hrun.
    code. rewrite Hrun. code.
    repeat split; try discriminate; at_rest_done.
  - simpl. repeat split; auto; try discriminate. apply since_now.
Qed.

Lemma defers_keeps (w w' : World E) :
  defers w w' ->
  g_dirPend (globals w) = true -> stepper w <> None ->
  g_dirPend (globals w') = true /\
  stepper w' <> None /\
  since (trace w) dir_write_at_rest (trace w').
Proof.
  intros Hw Hp Hs. induction Hw as [w | w w' w'' _ IH Hstep].
  - repeat split; auto. apply since_now.
  - destruct (IH Hp Hs) as (Hp' & Hs' & Ht').
    destruct (defer_step_keeps w' w'' Hstep Hp' Hs') as (Hp2 & Hs2 & Ht2).
    repeat split; try assumption. exact (since_trans _ _ _ _ Ht' Ht2).
Qed.

(** The direction a later check will apply is the one of the latest
    SetDirection that asked for a change. *)
Lemma dirNext_dispatch (w : World E) (cmd : Cmd) :
  g_dirNext (globals (exec (dispatch cmd) w)) =
  match type cmd with
  | CMD_DIR =>
      if to01 (a cmd) =? g_dir (globals w) then g_dirNext (globals w)
      else to01 (a cmd)
  | _ => g_dirNext (globals w)
  end.
Proof.
  destruct w as [[f ac d en al rr dp nx] [e|] t]; destruct cmd as [[] x y]; code.
  all: rewrite ?to01_idem.
  all: repeat (split_if; code).
  all: reflexivity.
Qed.

Lemma dirNext_alarmSample (w : World E) (al : bool) :
  g_dirNext (globals (exec (alarmSample al) w)) = g_dirNext (globals w).
Proof.
  destruct w as [[f ac d en al0 rr dp nx] [e|] t]; code.
  all: repeat (split_if; code).
  all: reflexivity.
Qed.

Lemma dirNext_dirTick (w : World E) :
  g_dirNext (globals (exec dirTick w)) = g_dirNext (globals w).
Proof.
  destruct w as [[f ac d en al rr dp nx] [e|] t]; code.
  all: repeat (split_if; code).
  all: reflexivity.
Qed.

(** C4 (amended).  (1) In every reachable world, each write of the
    direction pin in the trace was made while the engine reported not
    running.  (2) SetDirection with a direction other than the applied
    one, taken while the engine reports running, only stops the engine:
    the pin is not written, [g_dir] keeps its value and the change is
    recorded as pending.  (3) Whatever commands, alarm samples and
    engine changes follow, the change stays pending - and every write of
    the pin is made with the engine at rest - until the first
    end-of-loop check that sees the engine not running; that check
    clears [g_dirPend], and applies and writes to the pin the direction
    stored in [g_dirNext]; a further check does nothing.  (4)
    [g_dirNext] is the direction of the latest SetDirection that
    differed from the applied direction - no other command, no alarm
    sample and no check changes it: when no further SetDirection
    arrives it is still the requested one, and until the check fires the
    pin is not written at all. *)
Theorem direction_pin_follows_latest_request :
  (forall (w : World E) (en : Logged),
     reachable w -> In en (trace w) ->
     is_dir_write (call en) = true -> at_running en = false) /\
  (forall (w : World E) (x y : Z),
     reports_running w = true ->
     to01 x <> g_dir (globals w) ->
     let w1 := exec (dispatch (mkCmd CMD_DIR x y)) w in
     map call (trace w1) = StopMove :: map call (trace w) /\
     g_dir (globals w1) = g_dir (globals w) /\
     g_dirPend (globals w1) = true /\
     g_dirNext (globals w1) = to01 x /\
     forall w2 : World E,
       defers w1 w2 ->
       g_dirPend (globals w2) = true /\
       since (trace w1) dir_write_at_rest (trace w2) /\
       (waits w1 w2 ->
        g_dirNext (globals w2) = to01 x /\
        g_dir (globals w2) = g_dir (globals w) /\
        since (trace w1) not_dir_write (trace w2)) /\
       (reports_running w2 = false ->
        let w3 := exec dirTick w2 in
        let nx := g_dirNext (globals w2) in
        g_dirPend (globals w3) = false /\
        g_dir (globals w3) = nx /\
        since (mkLogged (DigitalWrite PIN_DIR (dir_level nx))
                        (set_dir nx (set_dirPend false (globals w2))) false
               :: trace w2)
              not_dir_write (trace w3) /\
        exec dirTick w3 = w3)) /\
  (forall (w : World E) (cmd : Cmd) (al : bool),
     g_dirNext (globals (exec (dispatch cmd) w)) =
       match type cmd with
       | CMD_DIR =>
           if to01 (a cmd) =? g_dir (globals w) then g_dirNext (globals w)
           else to01 (a cmd)
       | _ => g_dirNext (globals w)
       end /\
     g_dirNext (globals (exec (alarmSample al) w)) = g_dirNext (globals w) /\
     g_dirNext (globals (exec dirTick w)) = g_dirNext (globals w)).
Proof.
  split; [|split].
  - intros w en Hr Hin Hdw.
    destruct (reachable_wf w Hr) as [_ _ _ _ _ _ _ Ht].
    rewrite Forall_forall in Ht. destruct (Ht en Hin) as [_ Hok]. now apply Hok.
  - intros w x y Hrun Hd w1.
    assert (H1 : map call (trace w1) = StopMove :: map call (trace w) /\
                 g_dir (globals w1) = g_dir (globals w) /\
                 g_dirPend (globals w1) = true /\
                 g_dirNext (globals w1) = to01 x /\
                 stepper w1 <> None).
    { subst w1. destruct w as [[f ac d en al rr dp nx] [e|] t];
        unfold reports_running in Hrun; simpl in Hrun, Hd; [|discriminate].
      code. rewrite to01_idem. apply Z.eqb_neq in Hd. rewrite Hd, Hrun. code.
      cbn [map call]. repeat split. discriminate. }
    destruct H1 as (Htr & Hdir & Hpend & Hnext & Hs1).
    refine (conj Htr (conj Hdir (conj Hpend (conj Hnext _)))).
    intros w2 Hw.
    destruct (defers_keeps w1 w2 Hw Hpend Hs1) as (Hp2 & Hs2 & Ht2).
    refine (conj Hp2 (conj Ht2 (conj _ _))).
    + intros Hq.
      destruct (waits_keeps w1 w2 Hq Hpend Hs1) as (_ & Hn3 & Hd3 & _ & Ht3).
      repeat split; [congruence | congruence | exact Ht3].
    + intros Hstop. clear - Hp2 Hs2 Hstop.
      destruct w2 as [[f ac d en al rr dp nx] [e|] t]; [|simpl in Hs2; congruence].
      unfold reports_running in Hstop; simpl in Hp2, Hstop; subst dp.
      code; rewrite Hstop; code; rewrite ?Hstop.
      unfold dir_level.
      repeat (split_if; code; rewrite ?Hstop).
      all: repeat split.
      all: since_done.
  - intros w cmd al.
    split; [apply dirNext_dispatch | split; [apply dirNext_alarmSample|]].
    apply dirNext_dirTick.
Qed.

End Safety.

(** ** Further properties of the supervisor *)

Section Supervision.

Context {E : Type} {eng : FastAccelStepper E}.

Ltac param_done :=
  unfold param_ok; cbn [call]; try exact I;
  apply clamp_u32_bounds; unfold FREQ_MAX; lia.

Ltac params_done :=
  repeat (apply Forall_cons; [param_done|]); assumption.

Lemma params_dispatch (w : World E) (cmd : Cmd) :
  Forall param_ok (trace w) -> Forall param_ok (trace (exec (dispatch cmd) w)).
Proof.
  intros Ht. destruct w as [[f ac d en al rr dp nx] [e|] t]; simpl in Ht;
    destruct cmd as [[] x y]; code.
  all: repeat (split_if; code).
  all: params_done.
Qed.

Lemma params_alarmSample (w : World E) (al : bool) :
  Forall param_ok (trace w) -> Forall param_ok (trace (exec (alarmSample al) w)).
Proof.
  intros Ht. destruct w as [[f ac d en al0 rr dp nx] [e|] t]; simpl in Ht; code.
  all: repeat (split_if; code).
  all: params_done.
Qed.

Lemma params_dirTick (w : World E) :
  Forall param_ok (trace w) -> Forall param_ok (trace (exec dirTick w)).
Proof.
  intros Ht. destruct w as [[f ac d en al rr dp nx] [e|] t]; simpl in Ht; code.
  all: repeat (split_if; code).
  all: params_done.
Qed.

Lemma params_boot (e : E) : Forall param_ok (trace (boot e)).
Proof. code. repeat (apply Forall_cons; [param_done|]). constructor. Qed.

Lemma params_reachable (w : World E) : reachable w -> Forall param_ok (trace w).
Proof.
  induction 1 as [e | w w' _ IH Hstep].
  - apply params_boot.
  - destruct Hstep as [w cmd | w al | w | w e e' He].
    + now apply params_dispatch.
    + now apply params_alarmSample.
    + now apply params_dirTick.
    + exact IH.
Qed.

(** X2.  Every frequency and acceleration handed to the engine is within the
    bounds the engine accepts. *)
Theorem engine_parameters_in_range (w : World E) (en : Logged)
    (Hr : reachable w) (Hin : In en (trace w)) :
  (forall hz, call en = SetSpeedInHz hz -> 1 <= hz <= 400000) /\
  (forall acc, call en = SetAcceleration acc -> 1 <= acc <= 2000000).
Proof.
  pose proof (params_reachable w Hr) as Ht. rewrite Forall_forall in Ht.
  specialize (Ht en Hin). unfold param_ok, FREQ_MAX in Ht.
  split; intros v Hc; rewrite Hc in Ht; exact Ht.
Qed.

(** X1.  The stored frequency and acceleration stay within their bounds, the
    direction and enable flags stay 0 or 1, and the engine stays
    attached. *)
Theorem stored_values_in_range (w : World E) (Hr : reachable w) :
  1 <= g_userFreq (globals w) <= 400000 /\
  1 <= g_accel (globals w) <= 2000000 /\
  (g_dir (globals w) = 0 \/ g_dir (globals w) = 1) /\
  (g_en (globals w) = 0 \/ g_en (globals w) = 1) /\
  (g_dirNext (globals w) = 0 \/ g_dirNext (globals w) = 1) /\
  stepper w <> None.
Proof.
  destruct (reachable_wf w Hr) as [Hf Ha Hd He Hn _ Hs _].
  unfold FREQ_MAX, bit in *. tauto.
Qed.

(** X3.  A run is never requested while the driver is disabled or the alarm
    is active. *)
Theorem run_request_implies_enabled_no_alarm (w : World E)
    (Hr : reachable w) (Hrr : g_runReq (globals w) = true) :
  g_en (globals w) = 1 /\ g_alarm (globals w) = false.
Proof.
  destruct (reachable_wf w Hr) as [_ _ _ He _ Hq _ _].
  destruct (Hq Hrr) as [Hen Hal]. unfold bit in He. split; [lia | exact Hal].
Qed.

Ltac mirror_start Hm :=
  unfold pins_mirror, en_level, dir_level in *;
  cbn [globals trace g_en g_dir] in Hm.

Ltac mirror_done :=
  cbn [last_write call]; unfold PIN_EN, PIN_DIR in *; cbn [Z.eqb Pos.eqb];
  repeat match goal with
         | H : (?x =? ?y) = _ |- context [?x =? ?y] => rewrite H
         end;
  try discriminate; try tauto;
  try (split; [tauto || reflexivity | tauto || reflexivity]).

Lemma mirror_dispatch (w : World E) (cmd : Cmd) :
  pins_mirror w -> pins_mirror (exec (dispatch cmd) w).
Proof.
  intros Hm. destruct w as [[f ac d en al rr dp nx] [e|] t];
    destruct cmd as [[] x y]; mirror_start Hm; code.
  all: repeat (split_if; code).
  all: mirror_done.
Qed.

Lemma mirror_alarmSample (w : World E) (al : bool) :
  pins_mirror w -> pins_mirror (exec (alarmSample al) w).
Proof.
  intros Hm. destruct w as [[f ac d en al0 rr dp nx] [e|] t]; mirror_start Hm; code.
  all: repeat (split_if; code).
  all: mirror_done.
Qed.

Lemma mirror_dirTick (w : World E) :
  pins_mirror w -> pins_mirror (exec dirTick w).
Proof.
  intros Hm. destruct w as [[f ac d en al rr dp nx] [e|] t]; mirror_start Hm; code.
  all: repeat (split_if; code).
  all: mirror_done.
Qed.

(** X14.  The levels last written to the enable and direction pins mirror
    [g_en] (active LOW) and [g_dir]. *)
Theorem pins_mirror_globals (w : World E) (Hr : reachable w) :
  last_write PIN_EN (trace w) = Some (if g_en (globals w) =? 0 then HIGH else LOW) /\
  last_write PIN_DIR (trace w) = Some (if g_dir (globals w) =? 0 then LOW else HIGH).
Proof.
  change (pins_mirror w).
  induction Hr as [e | w w' _ IH Hstep].
  - code. split; reflexivity.
  - destruct Hstep as [w cmd | w al | w | w e e' He].
    + now apply mirror_dispatch.
    + now apply mirror_alarmSample.
    + now apply mirror_dirTick.
    + exact IH.
Qed.

Ltac quiet_done :=
  split; [reflexivity | repeat (apply since_call; [reflexivity|]); apply since_now].

Lemma quiet_dispatch (w : World E) (cmd : Cmd) :
  g_runReq (globals w) = false -> starts_motion (type cmd) = false ->
  g_runReq (globals (exec (dispatch cmd) w)) = false /\
  since (trace w) not_run (trace (exec (dispatch cmd) w)).
Proof.
  intros Hrr Hty. destruct w as [[f ac d en al rr dp nx] s t]. simpl in Hrr. subst rr.
  destruct cmd as [[] x y]; try discriminate Hty; destruct s as [e|]; code.
  all: repeat (split_if; code).
  all: quiet_done.
Qed.

Lemma quiet_alarmSample (w : World E) (al : bool) :
  g_runReq (globals w) = false ->
  g_runReq (globals (exec (alarmSample al) w)) = false /\
  since (trace w) not_run (trace (exec (alarmSample al) w)).
Proof.
  intros Hrr. destruct w as [[f ac d en al0 rr dp nx] [e|] t]; simpl in Hrr; subst rr; code.
  all: repeat (split_if; code).
  all: quiet_done.
Qed.

Lemma quiet_dirTick (w : World E) :
  g_runReq (globals w) = false ->
  g_runReq (globals (exec dirTick w)) = false /\
  since (trace w) not_run (trace (exec dirTick w)).
Proof.
  intros Hrr. destruct w as [[f ac d en al rr dp nx] [e|] t]; simpl in Hrr; subst rr; code.
  all: repeat (split_if; code).
  all: quiet_done.
Qed.

Lemma quiet_drain (q : list Cmd) (w : World E) :
  g_runReq (globals w) = false ->
  Forall (fun c => starts_motion (type c) = false) q ->
  g_runReq (globals (exec (drain q) w)) = false /\
  since (trace w) not_run (trace (exec (drain q) w)).
Proof.
  revert w. induction q as [|cmd q IH]; intros w Hrr Hq.
  - split; [exact Hrr | apply since_now].
  - inversion Hq as [|c q' Hc Hq']; subst.
    cbn [drain]. rewrite exec_bind.
    destruct (quiet_dispatch w cmd Hrr Hc) as [Hrr1 Ht1].
    destruct (IH _ Hrr1 Hq') as [Hrr2 Ht2].
    split; [exact Hrr2 | exact (since_trans _ _ _ _ Ht1 Ht2)].
Qed.

(** X6.  With no run requested, a loop iteration whose queue holds neither a
    Start nor a Ramp makes no run call and requests no run: once
    stopped, the motor starts again only on Start or Ramp. *)
Theorem stopped_until_start_or_ramp
    (w : World E) (lastPollMs now : Z) (q : list Cmd) (pin_al : Level)
    (Hrr : g_runReq (globals w) = false)
    (Hq : Forall (fun c => starts_motion (type c) = false) q) :
  let w' := exec (StepTask_iter lastPollMs q now pin_al) w in
  g_runReq (globals w') = false /\
  since (trace w) not_run (trace w').
Proof.
  cbv zeta. unfold StepTask_iter. rewrite !exec_bind.
  change (exec (ret ?x) ?w') with w'.
  destruct (quiet_drain q w Hrr Hq) as [Hrr1 Ht1].
  assert (H2 : g_runReq (globals (exec (pollAlarm lastPollMs now pin_al)
                                       (exec (drain q) w))) = false /\
               since (trace (exec (drain q) w)) not_run
                     (trace (exec (pollAlarm lastPollMs now pin_al) (exec (drain q) w)))).
  { unfold pollAlarm. destruct (u32 (now - lastPollMs) >=? 10).
    - rewrite exec_bind. change (exec (ret ?x) ?w') with w'.
      now apply quiet_alarmSample.
    - split; [exact Hrr1 | apply since_now]. }
  destruct H2 as [Hrr2 Ht2].
  destruct (quiet_dirTick _ Hrr2) as [Hrr3 Ht3].
  split; [exact Hrr3|].
  exact (since_trans _ _ _ _ (since_trans _ _ _ _ Ht1 Ht2) Ht3).
Qed.

(** X7.  An iteration with an empty queue, no direction change pending, and
    either no alarm poll due or the alarm pin at the latched level,
    leaves the world as it is: no call is made. *)
Theorem idle_iteration_is_silent
    (w : World E) (lastPollMs now : Z) (pin_al : Level)
    (Hp : g_dirPend (globals w) = false)
    (Hal : u32 (now - lastPollMs) < 10 \/ readAlarm pin_al = g_alarm (globals w)) :
  exec (StepTask_iter lastPollMs [] now pin_al) w = w.
Proof.
  destruct w as [[f ac d en al rr dp nx] s t]. simpl in Hp, Hal. subst dp.
  unfold StepTask_iter, pollAlarm. cbn [drain].
  destruct (u32 (now - lastPollMs) >=? 10) eqn:Hdue.
  - destruct Hal as [Hlt | Heq]; [apply Z.geb_le in Hdue; lia|].
    rewrite Heq. code. destruct al; code; reflexivity.
  - code. reflexivity.
Qed.

(** X8.  The 10 ms period survives the wrap-around of [millis()]: polled [d]
    milliseconds after the last poll, counted modulo 2^32, the alarm is
    sampled exactly when [d >= 10]. *)
Theorem poll_period_across_wraparound
    (w : World E) (lastPollMs d : Z) (pin_al : Level)
    (Hl : 0 <= lastPollMs < 2 ^ 32) (Hd : 0 <= d < 2 ^ 32) :
  pollAlarm lastPollMs (u32 (lastPollMs + d)) pin_al w =
  if d <? 10 then (lastPollMs, w)
  else (u32 (lastPollMs + d), exec (alarmSample (readAlarm pin_al)) w).
Proof.
  unfold pollAlarm.
  assert (He : u32 (u32 (lastPollMs + d) - lastPollMs) = d).
  { unfold u32. rewrite Zminus_mod_idemp_l.
    replace (lastPollMs + d - lastPollMs) with d by lia.
    apply Z.mod_small. exact Hd. }
  rewrite He. rewrite Z.geb_leb.
  destruct (d <? 10) eqn:Hlt.
  - apply Z.ltb_lt in Hlt. destruct (10 <=? d) eqn:Hle; [apply Z.leb_le in Hle; lia|].
    reflexivity.
  - apply Z.ltb_ge in Hlt. apply Z.leb_le in Hlt. rewrite Hlt.
    unfold bind, ret, exec. destruct (alarmSample (readAlarm pin_al) w). reflexivity.
Qed.



(** X11.  A Start that is let through gives the engine exactly the stored
    frequency and acceleration and starts it in the applied direction. *)
Theorem start_pushes_stored_parameters
    (w : World E) (e : E) (x y : Z)
    (Hr : reachable w)
    (Hs : stepper w = Some e)
    (Hen : g_en (globals w) <> 0)
    (Hal : g_alarm (globals w) = false) :
  let w' := exec (dispatch (mkCmd CMD_START x y)) w in
  globals w' = set_runReq true (globals w) /\
  map call (trace w') =
    run_call (g_dir (globals w)) :: SetAcceleration (g_accel (globals w))
      :: SetSpeedInHz (g_userFreq (globals w)) :: map call (trace w) /\
  stepper w' =
    Some ((if g_dir (globals w) =? 0 then runForward else runBackward)
            (setAcceleration (g_accel (globals w))
               (setSpeedInHz (g_userFreq (globals w)) e))).
Proof.
  destruct (reachable_wf w Hr) as [Hf Ha _ _ _ _ _ _].
  destruct w as [[f ac d en al rr dp nx] s t]. simpl in *. subst s al.
  apply Z.eqb_neq in Hen. code. repeat (rewrite Hen; code).
  rewrite !clamp_u32_id by (unfold FREQ_MAX in *; lia).
  unfold run_call. destruct (d =? 0); code; cbn [map call]; repeat split.
Qed.

(** X12.  SetFrequency and SetAcceleration on an engine that reports not
    running only update the engine parameters: no run call is made. *)
Theorem speed_change_does_not_start_stopped_engine
    (w : World E) (e : E) (t : CmdType) (x y : Z)
    (Hs : stepper w = Some e)
    (Hidle : forall hz acc, isRunning (setAcceleration acc (setSpeedInHz hz e)) = false)
    (Ht : t = CMD_FREQ \/ t = CMD_ACCEL) :
  let w' := exec (dispatch (mkCmd t x y)) w in
  exists hz acc,
    map call (trace w') = SetAcceleration acc :: SetSpeedInHz hz :: map call (trace w) /\
    stepper w' = Some (setAcceleration acc (setSpeedInHz hz e)) /\
    g_runReq (globals w') = g_runReq (globals w).
Proof.
  destruct w as [[f ac d en al rr dp nx] s tr]. simpl in Hs. subst s.
  destruct Ht as [-> | ->]; code; rewrite Hidle; code;
    cbn [map call]; eexists; eexists; repeat split.
Qed.

Lemma frame_dispatch (w : World E) (cmd : Cmd) :
  g_alarm (globals (exec (dispatch cmd) w)) = g_alarm (globals w) /\
  (type cmd <> CMD_EN ->
   g_en (globals (exec (dispatch cmd) w)) = g_en (globals w)).
Proof.
  destruct w as [[f ac d en al rr dp nx] [e|] t]; destruct cmd as [[] x y]; code.
  all: repeat (split_if; code).
  all: split; [reflexivity | intros Hne; try reflexivity; now elim Hne].
Qed.

(** X13.  Commands never change the latched alarm, and only SetEnable changes
    the enable flag; the end-of-loop direction check changes neither and
    an alarm sample leaves the enable flag alone. *)
Theorem alarm_and_enable_have_one_writer (w : World E) (q : list Cmd) (al : bool) :
  g_alarm (globals (exec (drain q) w)) = g_alarm (globals w) /\
  (Forall (fun c => type c <> CMD_EN) q ->
   g_en (globals (exec (drain q) w)) = g_en (globals w)) /\
  g_alarm (globals (exec dirTick w)) = g_alarm (globals w) /\
  g_en (globals (exec dirTick w)) = g_en (globals w) /\
  g_en (globals (exec (alarmSample al) w)) = g_en (globals w).
Proof.
  split; [|split].
  - revert w. induction q as [|cmd q IH]; intros w; [reflexivity|].
    cbn [drain]. rewrite exec_bind, IH. apply frame_dispatch.
  - revert w. induction q as [|cmd q IH]; intros w Hq; [reflexivity|].
    inversion Hq as [|c q' Hc Hq']; subst.
    cbn [drain]. rewrite exec_bind, IH by exact Hq'. now apply frame_dispatch.
  - destruct w as [[f ac d en al0 rr dp nx] [e|] t]; code.
    all: repeat (split_if; code).
    all: repeat split.
Qed.

End Supervision.

(** ** Properties of the producers *)

Section ProducerProperties.

Variable strtoul : String.string -> Z.

Lemma str_length_snoc (s : String.string) (c : Ascii.ascii) :
  String.length (String.append s (String.String c String.EmptyString)) =
  S (String.length s).
Proof. induction s as [|c0 s IH]; cbn; [reflexivity | now rewrite IH]. Qed.

Lemma str_append_snoc (s t : String.string) (c : Ascii.ascii) :
  String.append (String.append s (String.String c String.EmptyString)) t =
  String.append s (String.String c t).
Proof. induction s as [|c0 s IH]; cbn; [reflexivity | now rewrite IH]. Qed.

Lemma str_append_empty (s : String.string) : String.append s String.EmptyString = s.
Proof. induction s as [|c0 s IH]; cbn; [reflexivity | now rewrite IH]. Qed.

Lemma console_char_bounded (ch : Ascii.ascii) (line : String.string) :
  (String.length line <= 95)%nat ->
  (String.length (fst (console_char strtoul ch line)) <= 95)%nat.
Proof.
  intros Hlen. unfold console_char.
  destruct (Ascii.eqb ch "013"%char); [exact Hlen|].
  destruct (Ascii.eqb ch "010"%char); [cbn; lia|].
  destruct (String.length line <? 95)%nat eqn:Hlt; [|exact Hlen].
  apply Nat.ltb_lt in Hlt. cbn [fst]. rewrite str_length_snoc. lia.
Qed.

(** X18.  Whatever is received, the line buffer never holds more than 95
    characters, so the terminating NUL always fits in [line[96]]. *)
Theorem console_line_buffer_never_overflows
    (input : list Ascii.ascii) (line : String.string)
    (Hlen : (String.length line <= 95)%nat) :
  (String.length (fst (console_feed strtoul input line)) <= 95)%nat.
Proof.
  revert line Hlen. induction input as [|ch input IH]; intros line Hlen.
  - exact Hlen.
  - cbn [console_feed].
    pose proof (console_char_bounded ch line Hlen) as Hc.
    destruct (console_char strtoul ch line) as [line' out]. cbn [fst] in Hc.
    specialize (IH line' Hc).
    destruct (console_feed strtoul input line') as [line'' out']. exact IH.
Qed.

(** X19.  Characters beyond the 95th of a line are dropped: after receiving
    characters that are neither CR nor LF the buffer holds the old
    content followed by as many of them as still fit, and nothing but
    echoes is produced. *)
Theorem console_overlong_line_is_truncated
    (input : list Ascii.ascii) (line : String.string)
    (Hin : Forall (fun ch => ch <> "013"%char /\ ch <> "010"%char) input)
    (Hlen : (String.length line <= 95)%nat) :
  console_feed strtoul input line =
  (String.append line
     (String.string_of_list_ascii (firstn (95 - String.length line) input)),
   map Echo input).
Proof.
  revert line Hlen. induction Hin as [|ch input [Hcr Hlf] _ IH]; intros line Hlen.
  - cbn. rewrite firstn_nil. cbn. now rewrite str_append_empty.
  - cbn [console_feed]. unfold console_char.
    apply Ascii.eqb_neq in Hcr, Hlf. rewrite Hcr, Hlf.
    destruct (String.length line <? 95)%nat eqn:Hlt.
    + apply Nat.ltb_lt in Hlt.
      rewrite IH by (rewrite str_length_snoc; lia).
      rewrite str_length_snoc.
      replace (95 - String.length line)%nat with (S (95 - S (String.length line)))
        by lia.
      cbn [firstn String.string_of_list_ascii map app].
      now rewrite str_append_snoc.
    + apply Nat.ltb_ge in Hlt.
      rewrite IH by exact Hlen.
      replace (95 - String.length line)%nat with 0%nat by lia.
      reflexivity.
Qed.






(** X22.  A console line yields at most one command, "ok" exactly when one is
    sent, and never a CMD_STATUS: the status is printed by the console
    itself. *)
Theorem console_line_outcomes (buf : String.string) :
  console_line strtoul buf = [] \/
  console_line strtoul buf = [PrintStatus] \/
  console_line strtoul buf = [Println "ERR"%string] \/
  exists c, console_line strtoul buf = [Send c; Println "ok"%string] /\
            type c <> CMD_STATUS.
Proof.
  unfold console_line.
  destruct (skip_blanks (cstr buf)) as [|c0 rest]; [now left|].
  repeat match goal with
         | |- context [if ?c then _ else _] => destruct c
         | |- context [let (_, _) := ?p in _] => destruct p
         end;
    try (now right; left); try (now right; right; left);
    right; right; right; eexists; (split; [reflexivity | discriminate]).
Qed.

(** X16.  Every web request on a queue with a free slot appends exactly one
    command, whose payload is already within its range and which is
    never a CMD_STATUS; on a full queue, or before the queue exists, the
    request is refused and the queue is left as it was. *)
Theorem web_requests_enqueue_in_range (r : Request) (q : list Cmd) :
  ((List.length q < QUEUE_LENGTH)%nat ->
   exists c, serve strtoul r (Some q) = (true, Some (q ++ [c])) /\
             payload_in_range c /\ type c <> CMD_STATUS) /\
  ((QUEUE_LENGTH <= List.length q)%nat ->
   serve strtoul r (Some q) = (false, Some q)) /\
  serve strtoul r None = (false, None).
Proof.
  split; [|split].
  - intros Hlt. apply Nat.ltb_lt in Hlt.
    destruct r; cbn [serve]; unfold handleStart, handleStop, handleSetF, handleSetAcc,
      handleSetDir, handleSetEn, handleRamp, qSend, xQueueSend; rewrite Hlt;
      eexists; (split; [reflexivity|]); (split; [|discriminate]);
      unfold payload_in_range; cbn [type a b].
    + exact I.
    + exact I.
    + apply clamp_u32_bounds. unfold FREQ_MAX. lia.
    + apply clamp_u32_bounds. lia.
    + destruct (to01_is_bit (arg_u32 strtoul v)); auto.
    + destruct (to01_is_bit (arg_u32 strtoul v)); auto.
    + split; apply clamp_u32_bounds; unfold FREQ_MAX; lia.
  - intros Hge. apply Nat.ltb_ge in Hge.
    destruct r; cbn [serve]; unfold handleStart, handleStop, handleSetF, handleSetAcc,
      handleSetDir, handleSetEn, handleRamp, qSend, xQueueSend; rewrite Hge; reflexivity.
  - destruct r; reflexivity.
Qed.

End ProducerProperties.

(** ** Console and web API against the supervisor *)

Section Agreement.

Context {E : Type} {eng : FastAccelStepper E}.

Variable strtoul : String.string -> Z.

Lemma clamp_u32_idem (v lo hi : Z) :
  lo <= hi -> clamp_u32 (clamp_u32 v lo hi) lo hi = clamp_u32 v lo hi.
Proof. intros Hle. apply clamp_u32_id. now apply clamp_u32_bounds. Qed.

(** The supervisor treats a payload and its clamped or 0/1 form alike. *)
Lemma dispatch_absorbs_clamp (t : CmdType) (x y : Z) (w : World E) :
  exec (dispatch (mkCmd t
          (match t with
           | CMD_FREQ | CMD_RAMP => clamp_u32 x 1 FREQ_MAX
           | CMD_ACCEL => clamp_u32 x 1 2000000
           | CMD_DIR | CMD_EN => to01 x
           | _ => x
           end)
          (match t with CMD_RAMP => clamp_u32 y 50 60000 | _ => y end))) w =
  exec (dispatch (mkCmd t x y)) w.
Proof.
  destruct t; unfold dispatch; cbn [type a b];
    rewrite ?clamp_u32_idem by (unfold FREQ_MAX; lia);
    rewrite ?to01_idem; reflexivity.
Qed.

Lemma str_prefix_empty (s : String.string) : String.prefix String.EmptyString s = true.
Proof. destruct s; reflexivity. Qed.

Lemma split_token_arg (x y : String.string) :
  Forall (fun c => is_blank c = false) (String.list_ascii_of_string x) ->
  skip_blanks y = y ->
  split_token (String.append x (String.String " "%char y)) = (x, y).
Proof.
  induction x as [|c x IH]; cbn [String.append String.list_ascii_of_string];
    intros Hx Hy.
  - cbn. now rewrite Hy.
  - inversion Hx as [|c' l Hc Hl]; subst.
    cbn [split_token]. rewrite Hc, IH by assumption. reflexivity.
Qed.

Lemma console_feed_app (i1 i2 : list Ascii.ascii) (line : String.string) :
  console_feed strtoul (i1 ++ i2) line =
  (fst (console_feed strtoul i2 (fst (console_feed strtoul i1 line))),
   snd (console_feed strtoul i1 line) ++
   snd (console_feed strtoul i2 (fst (console_feed strtoul i1 line)))).
Proof.
  revert line. induction i1 as [|ch i1 IH]; intros line.
  - cbn [app console_feed fst snd].
    destruct (console_feed strtoul i2 line); reflexivity.
  - cbn [app console_feed].
    destruct (console_char strtoul ch line) as [l1 o1].
    rewrite IH.
    destruct (console_feed strtoul i1 l1) as [l2 o2]. cbn [fst snd].
    destruct (console_feed strtoul i2 l2) as [l3 o3]. cbn [fst snd].
    now rewrite app_assoc.
Qed.

Lemma console_feed_fits (input : list Ascii.ascii) (line : String.string) :
  Forall ordinary input ->
  (String.length line + List.length input <= 95)%nat ->
  console_feed strtoul input line =
  (String.append line (String.string_of_list_ascii input), map Echo input).
Proof.
  intros Hin. revert line.
  induction Hin as [|ch input (_ & Hcr & Hlf) _ IH]; intros line Hlen.
  - cbn. now rewrite str_append_empty.
  - cbn [List.length] in Hlen. cbn [console_feed]. unfold console_char.
    apply Ascii.eqb_neq in Hcr, Hlf. rewrite Hcr, Hlf.
    assert (Hlt : (String.length line <? 95)%nat = true) by (apply Nat.ltb_lt; lia).
    rewrite Hlt, IH by (rewrite str_length_snoc; lia).
    cbn [String.string_of_list_ascii map app]. now rewrite str_append_snoc.
Qed.

Lemma ordinary_cstr (s : String.string) :
  Forall ordinary (String.list_ascii_of_string s) -> cstr s = s.
Proof.
  induction s as [|c s IH]; cbn [String.list_ascii_of_string cstr]; intros Hs.
  - reflexivity.
  - inversion Hs as [|c' l (Hz & _) Hl]; subst.
    apply Ascii.eqb_neq in Hz. rewrite Hz, IH by assumption. reflexivity.
Qed.

Lemma str_length_chars (s : String.string) :
  List.length (String.list_ascii_of_string s) = String.length s.
Proof. induction s as [|c s IH]; cbn; [reflexivity | now rewrite IH]. Qed.

(** A line of ordinary characters that fits the buffer, ended by a
    newline: every character is echoed and the line is handled whole. *)
Lemma console_types_line (line : String.string) :
  Forall ordinary (String.list_ascii_of_string line) ->
  (String.length line <= 95)%nat ->
  console_feed strtoul (typed line) String.EmptyString =
  (String.EmptyString, map Echo (typed line) ++ console_line strtoul line).
Proof.
  intros Hord Hlen. unfold typed.
  rewrite console_feed_app.
  assert (Hfit : (String.length String.EmptyString +
                  List.length (String.list_ascii_of_string line) <= 95)%nat)
    by (rewrite str_length_chars; cbn [String.length]; lia).
  rewrite (console_feed_fits (String.list_ascii_of_string line) String.EmptyString
             Hord Hfit).
  cbn [fst snd String.append].
  rewrite String.string_of_list_ascii_of_string.
  cbn [console_feed]. unfold console_char. cbn [Ascii.eqb Bool.eqb andb].
  rewrite map_app. cbn [map app]. rewrite app_nil_r, <- app_assoc. reflexivity.
Qed.

Lemma ordinary_app (s t : String.string) :
  Forall ordinary (String.list_ascii_of_string s) ->
  Forall ordinary (String.list_ascii_of_string t) ->
  Forall ordinary (String.list_ascii_of_string (String.append s t)).
Proof.
  induction s as [|c s IH]; cbn [String.append String.list_ascii_of_string];
    intros Hs Ht.
  - exact Ht.
  - inversion Hs; subst. constructor; [assumption | now apply IH].
Qed.

Ltac ordinary_word :=
  repeat (apply Forall_cons; [repeat split; discriminate|]); try assumption.

(** X17.  The console sends parsed numbers as they are, the web API
    clamps them first; the supervisor ends in the same world.  For an
    argument text [s] of characters other than NUL, CR and LF: when the
    line fits the 95-character buffer, typing [f s], [acc s], [dir s] or
    [en s] and a newline sends one command, and that command and the
    one the corresponding web request enqueues for the same text lead
    the supervisor from any world to the same world.  The same holds
    for [ramp s s2] when moreover [s] holds no blank or tab and [s2]
    does not start with one. *)
Theorem console_and_web_agree
    (s s2 : String.string) (w : World E)
    (Hs : Forall ordinary (String.list_ascii_of_string s))
    (Hs2 : Forall ordinary (String.list_ascii_of_string s2)) :
  let agree (line : String.string) (r : Request) :=
    (String.length line <= 95)%nat ->
    exists c1 c2,
      console_feed strtoul (typed line) String.EmptyString =
        (String.EmptyString,
         map Echo (typed line) ++ [Send c1; Println "ok"%string]) /\
      serve strtoul r (Some []) = (true, Some [c2]) /\
      exec (dispatch c1) w = exec (dispatch c2) w in
  agree (String.append "f " s) (ApiF (Some s)) /\
  agree (String.append "acc " s) (ApiAcc (Some s)) /\
  agree (String.append "dir " s) (ApiDir (Some s)) /\
  agree (String.append "en " s) (ApiEn (Some s)) /\
  (Forall (fun c => is_blank c = false) (String.list_ascii_of_string s) ->
   skip_blanks s2 = s2 ->
   agree (String.append "ramp " (String.append s (String.String " "%char s2)))
         (ApiRamp (Some s) (Some s2))).
Proof.
  cbv zeta.
  pose proof (ordinary_cstr s Hs) as Hc.
  pose proof (ordinary_cstr s2 Hs2) as Hc2.
  assert (Hboth : Forall ordinary
            (String.list_ascii_of_string (String.append s (String.String " "%char s2)))).
  { apply ordinary_app; [exact Hs|].
    cbn [String.list_ascii_of_string]. ordinary_word. }
  pose proof (ordinary_cstr _ Hboth) as Hramp.
  split; [|split; [|split; [|split]]].
  - intros Hlen. eexists; eexists.
    rewrite console_types_line
      by (assumption || (cbn [String.append String.list_ascii_of_string]; ordinary_word)).
    unfold console_line. cbn [String.append cstr Ascii.eqb Bool.eqb]. rewrite Hc.
    cbn. rewrite ?str_prefix_empty. split; [reflexivity|]. split; [reflexivity|].
    symmetry. apply (dispatch_absorbs_clamp CMD_FREQ).
  - intros Hlen. eexists; eexists.
    rewrite console_types_line
      by (assumption || (cbn [String.append String.list_ascii_of_string]; ordinary_word)).
    unfold console_line. cbn [String.append cstr Ascii.eqb Bool.eqb]. rewrite Hc.
    cbn. rewrite ?str_prefix_empty. split; [reflexivity|]. split; [reflexivity|].
    symmetry. apply (dispatch_absorbs_clamp CMD_ACCEL).
  - intros Hlen. eexists; eexists.
    rewrite console_types_line
      by (assumption || (cbn [String.append String.list_ascii_of_string]; ordinary_word)).
    unfold console_line. cbn [String.append cstr Ascii.eqb Bool.eqb]. rewrite Hc.
    cbn. rewrite ?str_prefix_empty. split; [reflexivity|]. split; [reflexivity|].
    symmetry. apply (dispatch_absorbs_clamp CMD_DIR).
  - intros Hlen. eexists; eexists.
    rewrite console_types_line
      by (assumption || (cbn [String.append String.list_ascii_of_string]; ordinary_word)).
    unfold console_line. cbn [String.append cstr Ascii.eqb Bool.eqb]. rewrite Hc.
    cbn. rewrite ?str_prefix_empty. split; [reflexivity|]. split; [reflexivity|].
    symmetry. apply (dispatch_absorbs_clamp CMD_EN).
  - intros Hplain Hs2b Hlen. eexists; eexists.
    rewrite console_types_line
      by (assumption || (cbn [String.append String.list_ascii_of_string]; ordinary_word)).
    unfold console_line. cbn [String.append cstr Ascii.eqb Bool.eqb]. rewrite Hramp.
    cbn. rewrite ?str_prefix_empty. rewrite split_token_arg by assumption.
    split; [reflexivity|]. split; [reflexivity|].
    symmetry. apply (dispatch_absorbs_clamp CMD_RAMP).
Qed.

End Agreement.

(** ** The properties on concrete runs *)

Ltac by_eval := vm_compute; first [reflexivity | discriminate | tauto].

Ltac differs := let H := fresh "Hsame" in intros H; vm_compute in H; discriminate H.

Lemma sim_boot_reachable : reachable sim_boot.
Proof. exact (reach_boot sim_idle). Defined.

Lemma w_started_reachable : reachable w_started.
Proof. exact (reach_step _ _ sim_boot_reachable (step_cmd sim_boot cmd_start)). Defined.

Lemma w_turning_reachable : reachable w_turning.
Proof.
  exact (reach_step _ _ w_started_reachable (step_cmd w_started (mkCmd CMD_DIR 1 0))).
Defined.

Lemma w_turning_def : exec (dispatch (mkCmd CMD_DIR 1 0)) w_started = w_turning.
Proof. unfold w_turning, run. reflexivity. Defined.

Lemma w_turning_engine : stepper w_turning = Some e_turning.
Proof. by_eval. Defined.

Lemma w_turning_stopped_eq :
  mkWorld (globals w_turning) (Some (sim_halt e_turning)) (trace w_turning) =
  w_turning_stopped.
Proof. by_eval. Defined.

Lemma w_turning_rests : wait_step w_turning w_turning_stopped.
Proof.
  rewrite <- w_turning_stopped_eq.
  exact (wait_engine w_turning e_turning (sim_halt e_turning) w_turning_engine).
Defined.

Lemma w_turned_reachable : reachable w_turned.
Proof.
  refine (reach_step _ _ _ (step_dirTick w_turning_stopped)).
  rewrite <- w_turning_stopped_eq.
  exact (reach_step _ _ w_turning_reachable
           (step_engine w_turning e_turning (sim_halt e_turning) w_turning_engine)).
Defined.

(** The end-to-end run of the specification: one loop iteration that
    finds SetFrequency(10000), SetAcceleration(50000), SetEnable(1) and
    Start in the queue leaves the engine running with these values. *)
Lemma end_to_end_snapshot :
  let w := exec (StepTask_iter 0
                   [mkCmd CMD_FREQ 10000 0; mkCmd CMD_ACCEL 50000 0;
                    mkCmd CMD_EN 1 0; cmd_start] 1 LOW) sim_boot in
  reports_running w = true /\
  g_userFreq (globals w) = 10000 /\
  g_accel (globals w) = 50000 /\
  g_en (globals w) = 1 /\
  g_alarm (globals w) = false.
Proof. cbv zeta. repeat (split; [by_eval|]). by_eval. Qed.

(** C1 at the failing input: running after a Start ([g_runReq] true),
    the poll at [now = 10] reads the alarm pin HIGH; [g_runReq] is false
    afterwards. *)
Lemma alarm_rising_edge_clears_runReq_witness :
  stepper w_started = Some e_started /\
  g_alarm (globals w_started) = false /\
  10 <= u32 (10 - 0) /\
  g_runReq (globals w_started) = true /\
  g_alarm (globals (exec (pollAlarm 0 10 HIGH) w_started)) = true /\
  g_runReq (globals (exec (pollAlarm 0 10 HIGH) w_started)) = false.
Proof.
  assert (Hs : stepper w_started = Some e_started) by by_eval.
  assert (Hal : g_alarm (globals w_started) = false) by by_eval.
  assert (Hdue : 10 <= u32 (10 - 0)) by differs.
  assert (Hrr : g_runReq (globals w_started) = true) by by_eval.
  pose proof (alarm_rising_edge_clears_runReq w_started e_started 0 10
                Hs Hal Hdue) as H.
  cbv zeta in H. destruct H as (H1 & H2 & _).
  split; [exact Hs|]. split; [exact Hal|]. split; [exact Hdue|].
  split; [exact Hrr|]. split; [exact H1 | exact H2].
Defined.

(** C2 as stated fails: with the alarm active and no run requested, a
    Start does not set [g_runReq]. *)
Lemma start_under_alarm_leaves_runReq_false :
  g_alarm (globals w_alarmed) = true /\
  g_runReq (globals (run cmd_start w_alarmed)) <> true.
Proof. split; [by_eval | differs]. Qed.

Lemma start_under_alarm_is_noop_witness :
  g_alarm (globals w_alarmed) = true /\
  exec (dispatch (mkCmd CMD_START 0 0)) w_alarmed = w_alarmed.
Proof.
  assert (Hal : g_alarm (globals w_alarmed) = true) by by_eval.
  split; [exact Hal|].
  exact (start_under_alarm_is_noop w_alarmed 0 0 Hal).
Defined.

(** C3 at the failing input: running after a Start, SetEnable(0), the
    engine comes to rest, SetEnable(1): no run is requested any more and
    the engine is left at rest. *)
Lemma disable_clears_runReq_witness :
  stepper w_started = Some e_started /\
  1 <> 0 /\
  g_runReq (globals w_started) = true /\
  g_runReq (globals (exec (dispatch (mkCmd CMD_EN 0 0)) w_started)) = false /\
  g_runReq
    (globals
       (exec (dispatch (mkCmd CMD_EN 1 0))
          (mkWorld (globals (exec (dispatch (mkCmd CMD_EN 0 0)) w_started))
                   (Some (sim_halt e_started))
                   (trace (exec (dispatch (mkCmd CMD_EN 0 0)) w_started))))) = false /\
  stepper
    (exec (dispatch (mkCmd CMD_EN 1 0))
       (mkWorld (globals (exec (dispatch (mkCmd CMD_EN 0 0)) w_started))
                (Some (sim_halt e_started))
                (trace (exec (dispatch (mkCmd CMD_EN 0 0)) w_started))))
    = Some (sim_halt e_started) /\
  isRunning (sim_halt e_started) = false.
Proof.
  assert (Hs : stepper w_started = Some e_started) by by_eval.
  assert (Hx : 1 <> 0) by differs.
  assert (Hrr : g_runReq (globals w_started) = true) by by_eval.
  pose proof (disable_clears_runReq w_started e_started (sim_halt e_started)
                1 0 0 Hs Hx) as H.
  cbv zeta in H. destruct H as (_ & H1 & _ & _ & _ & H2 & H3 & _).
  split; [exact Hs|]. split; [exact Hx|]. split; [exact Hrr|].
  split; [exact H1|]. split; [exact H2|]. split; [exact H3|].
  by_eval.
Defined.

(** C5 on the example of the specification: Ramp(20000, 1000) from
    10000 Hz derives 10000 Hz/s. *)
Lemma ramp_rate_truncates_witness :
  reachable sim_boot /\
  g_userFreq (globals (exec (dispatch (mkCmd CMD_RAMP 20000 1000)) sim_boot)) = 20000 /\
  g_accel (globals (exec (dispatch (mkCmd CMD_RAMP 20000 1000)) sim_boot)) = 10000 /\
  g_runReq (globals (exec (dispatch (mkCmd CMD_RAMP 20000 1000)) sim_boot)) = true.
Proof.
  assert (Hen : g_en (globals sim_boot) <> 0) by differs.
  assert (Hal : g_alarm (globals sim_boot) = false) by by_eval.
  pose proof (ramp_rate_truncates sim_boot 20000 1000 sim_boot_reachable) as H.
  cbv zeta in H. destruct H as (H1 & H2 & H3 & _).
  destruct (H3 Hen Hal) as [Hrr _].
  split; [exact sim_boot_reachable|].
  split; [rewrite H1; by_eval|]. split; [rewrite H2; by_eval | exact Hrr].
Defined.

(** C5 as stated fails: Ramp(10007, 4000) from 10000 Hz has delta 7, and
    7000 / 4000 = 1.75; the nearest integer is 2, the code stores 1. *)
Lemma ramp_rate_is_not_rounded :
  Z.abs (clamp_u32 10007 1 400000 - g_userFreq (globals sim_boot)) = 7 /\
  clamp_u32 4000 50 60000 = 4000 /\
  spec_ramp_rate 7 4000 = 2 /\
  g_accel (globals (run (mkCmd CMD_RAMP 10007 4000) sim_boot)) = 1 /\
  g_accel (globals (run (mkCmd CMD_RAMP 10007 4000) sim_boot)) <> spec_ramp_rate 7 4000.
Proof.
  split; [by_eval|]. split; [by_eval|]. split; [by_eval|]. split; [by_eval | differs].
Qed.

(** C7 as stated fails: after [setup] the driver is enabled. *)
Lemma setup_enables_driver :
  g_en globals0 <> 0 /\
  g_en (globals sim_boot) <> 0 /\
  In (DigitalWrite PIN_EN LOW) (map call (trace sim_boot)).
Proof.
  split; [differs|]. split; [differs|].
  vm_compute. tauto.
Qed.

(** C8 while a direction change is pending: SetDirection(0), the
    direction still applied, changes nothing. *)
Lemma stop_idempotent_same_direction_noop_witness :
  to01 0 = g_dir (globals w_turning) /\
  g_dirPend (globals w_turning) = true /\
  globals (exec (dispatch cmd_stop) (exec (dispatch cmd_stop) w_turning)) =
    globals (exec (dispatch cmd_stop) w_turning) /\
  exec (dispatch (mkCmd CMD_DIR 0 0)) w_turning = w_turning.
Proof.
  assert (Hd : to01 0 = g_dir (globals w_turning)) by by_eval.
  assert (Hp : g_dirPend (globals w_turning) = true) by by_eval.
  split; [exact Hd|]. split; [exact Hp|].
  exact (stop_idempotent_same_direction_noop w_turning 0 0 Hd).
Defined.

(** C9 on the run call of [w_started]. *)
Lemma no_run_call_when_alarmed_or_disabled_witness :
  reachable w_started /\
  In ran_forward (trace w_started) /\
  is_run (call ran_forward) = true /\
  g_alarm (at_state ran_forward) = false /\
  g_en (at_state ran_forward) <> 0.
Proof.
  assert (Hin : In ran_forward (trace w_started)) by (vm_compute; left; reflexivity).
  assert (Hrun : is_run (call ran_forward) = true) by by_eval.
  split; [exact w_started_reachable|]. split; [exact Hin|]. split; [exact Hrun|].
  exact (no_run_call_when_alarmed_or_disabled w_started ran_forward
           w_started_reachable Hin Hrun).
Defined.

(** C10 on [w_turning]: SetFrequency(20000) makes the engine run forward
    again although the change to backward is still pending. *)
Lemma speed_change_reruns_old_direction_while_pending_witness :
  stepper w_turning = Some e_turning /\
  g_dirPend (globals w_turning) = true /\
  g_runReq (globals w_turning) = true /\
  (forall hz acc, isRunning (setAcceleration acc (setSpeedInHz hz e_turning)) = true) /\
  (exists hz acc,
     map call (trace (exec (dispatch (mkCmd CMD_FREQ 20000 0)) w_turning)) =
       run_call (g_dir (globals w_turning)) :: SetAcceleration acc :: SetSpeedInHz hz
         :: map call (trace w_turning)) /\
  run_call (g_dir (globals w_turning)) = RunForward /\
  g_dirNext (globals w_turning) = 1 /\
  g_dirPend (globals (exec (dispatch (mkCmd CMD_FREQ 20000 0)) w_turning)) = true.
Proof.
  assert (Hp : g_dirPend (globals w_turning) = true) by by_eval.
  assert (Hrr : g_runReq (globals w_turning) = true) by by_eval.
  assert (Hrun : forall hz acc,
             isRunning (setAcceleration acc (setSpeedInHz hz e_turning)) = true)
    by (intros hz acc; reflexivity).
  pose proof (speed_change_reruns_old_direction_while_pending
                w_turning e_turning CMD_FREQ 20000 0
                w_turning_engine Hp Hrr Hrun (or_introl eq_refl)) as H.
  cbv zeta in H. destruct H as ((hz & acc & Htr & _) & _ & Hp' & _).
  split; [exact w_turning_engine|]. split; [exact Hp|]. split; [exact Hrr|].
  split; [exact Hrun|].
  split; [exists hz, acc; exact Htr|].
  split; [by_eval|]. split; [by_eval | exact Hp'].
Defined.

Lemma w_turning_cancelled_engine : stepper w_turning_cancelled = Some e_turning.
Proof. by_eval. Defined.

Lemma w_cancelled_rest_eq :
  mkWorld (globals w_turning_cancelled) (Some (sim_halt e_turning))
          (trace w_turning_cancelled) = w_cancelled_rest.
Proof. by_eval. Defined.

Lemma w_rerouted_defers : defers w_turning w_rerouted.
Proof.
  unfold w_rerouted, run.
  apply (defers_step _ (exec (dispatch (mkCmd CMD_DIR 1 0)) w_cancelled_rest));
    [|apply defer_cmd].
  apply (defers_step _ w_cancelled_rest); [|apply defer_cmd].
  rewrite <- w_cancelled_rest_eq.
  apply (defers_step _ w_turning_cancelled);
    [|exact (defer_engine _ e_turning _ w_turning_cancelled_engine)].
  unfold w_turning_cancelled, run.
  apply (defers_step _ w_turning); [apply defers_refl | apply defer_cmd].
Defined.

Lemma w_rerouted_reachable : reachable w_rerouted.
Proof.
  unfold w_rerouted, run.
  apply (reach_step (exec (dispatch (mkCmd CMD_DIR 1 0)) w_cancelled_rest));
    [|apply step_cmd].
  apply (reach_step w_cancelled_rest); [|apply step_cmd].
  rewrite <- w_cancelled_rest_eq.
  apply (reach_step w_turning_cancelled);
    [|exact (step_engine _ e_turning _ w_turning_cancelled_engine)].
  unfold w_turning_cancelled, run.
  apply (reach_step w_turning); [exact w_turning_reachable | apply step_cmd].
Defined.

(** C4 as stated fails: running forward, SetDirection(1) is deferred;
    a Stop follows, the engine comes to rest, and SetDirection(1) and
    SetDirection(0) are taken before the end-of-loop check runs.  The
    change is still pending, and the first check that sees the engine
    not running writes the pin LOW, not the HIGH of the deferred
    request. *)
Lemma direction_check_writes_a_later_request :
  reachable w_rerouted /\
  reports_running w_started = true /\
  to01 1 <> g_dir (globals w_started) /\
  g_dirPend (globals w_turning) = true /\
  g_dirNext (globals w_turning) = to01 1 /\
  defers w_turning w_rerouted /\
  g_dirPend (globals w_rerouted) = true /\
  reports_running w_rerouted = false /\
  g_dirPend (globals (exec dirTick w_rerouted)) = false /\
  hd_error (map call (trace (exec dirTick w_rerouted))) =
    Some (DigitalWrite PIN_DIR LOW) /\
  DigitalWrite PIN_DIR LOW <> DigitalWrite PIN_DIR (dir_level (to01 1)).
Proof.
  split; [exact w_rerouted_reachable|].
  split; [by_eval|]. split; [differs|]. split; [by_eval|]. split; [by_eval|].
  split; [exact w_rerouted_defers|].
  split; [by_eval|]. split; [by_eval|]. split; [by_eval|]. split; [by_eval|].
  differs.
Qed.

(** C4 on [w_started]: SetDirection(1) is deferred.  Left alone, the
    engine comes to rest and the end-of-loop check writes the pin HIGH,
    with the engine reporting not running.  Overtaken by a Stop and two
    more SetDirection, the check applies the direction in [g_dirNext]. *)
Lemma direction_pin_follows_latest_request_witness :
  (reachable w_turned /\
   In wrote_dir (trace w_turned) /\
   is_dir_write (call wrote_dir) = true /\
   at_running wrote_dir = false) /\
  (reports_running w_started = true /\
   to01 1 <> g_dir (globals w_started) /\
   g_dirPend (globals (exec (dispatch (mkCmd CMD_DIR 1 0)) w_started)) = true /\
   (defers (exec (dispatch (mkCmd CMD_DIR 1 0)) w_started) w_rerouted /\
    reports_running w_rerouted = false /\
    g_dirPend (globals w_rerouted) = true /\
    g_dirPend (globals (exec dirTick w_rerouted)) = false /\
    g_dir (globals (exec dirTick w_rerouted)) = g_dirNext (globals w_rerouted)) /\
   (defers (exec (dispatch (mkCmd CMD_DIR 1 0)) w_started) w_turning_stopped /\
    waits (exec (dispatch (mkCmd CMD_DIR 1 0)) w_started) w_turning_stopped /\
    reports_running w_turning_stopped = false /\
    g_dirNext (globals w_turning_stopped) = to01 1 /\
    g_dirPend (globals (exec dirTick w_turning_stopped)) = false /\
    g_dir (globals (exec dirTick w_turning_stopped)) =
      g_dirNext (globals w_turning_stopped) /\
    exec dirTick (exec dirTick w_turning_stopped) = exec dirTick w_turning_stopped)) /\
  g_dirNext (globals (exec (dispatch (mkCmd CMD_DIR 0 0)) w_turned)) = 0.
Proof.
  destruct (@direction_pin_follows_latest_request SimStepper SimEngine)
    as (Hsafe & Hdefer & Hnext).
  assert (Hin : In wrote_dir (trace w_turned))
    by (vm_compute; right; right; right; left; reflexivity).
  assert (Hdw : is_dir_write (call wrote_dir) = true) by by_eval.
  assert (Hrun : reports_running w_started = true) by by_eval.
  assert (Hne : to01 1 <> g_dir (globals w_started)) by differs.
  assert (Hstop : reports_running w_turning_stopped = false) by by_eval.
  assert (Hstop' : reports_running w_rerouted = false) by by_eval.
  assert (Hw : waits (exec (dispatch (mkCmd CMD_DIR 1 0)) w_started) w_turning_stopped).
  { rewrite w_turning_def.
    apply (waits_step _ w_turning); [apply waits_refl|].
    exact w_turning_rests. }
  assert (Hd : defers (exec (dispatch (mkCmd CMD_DIR 1 0)) w_started) w_turning_stopped).
  { rewrite w_turning_def.
    apply (defers_step _ w_turning); [apply defers_refl|].
    rewrite <- w_turning_stopped_eq.
    exact (defer_engine w_turning e_turning (sim_halt e_turning) w_turning_engine). }
  assert (Hd' : defers (exec (dispatch (mkCmd CMD_DIR 1 0)) w_started) w_rerouted).
  { rewrite w_turning_def. exact w_rerouted_defers. }
  split; [|split].
  - split; [exact w_turned_reachable|]. split; [exact Hin|]. split; [exact Hdw|].
    exact (Hsafe w_turned wrote_dir w_turned_reachable Hin Hdw).
  - pose proof (Hdefer w_started 1 0 Hrun Hne) as H.
    cbv zeta in H. destruct H as (_ & _ & Hp & _ & Hlater).
    destruct (Hlater w_rerouted Hd') as (Hp' & _ & _ & Htick').
    destruct (Htick' Hstop') as (Hp3' & Hd3' & _).
    destruct (Hlater w_turning_stopped Hd) as (_ & _ & Hquiet & Htick).
    destruct (Hquiet Hw) as (Hn & _).
    destruct (Htick Hstop) as (Hp3 & Hd3 & _ & Hidle).
    split; [exact Hrun|]. split; [exact Hne|]. split; [exact Hp|]. split.
    + split; [exact Hd'|]. split; [exact Hstop'|]. split; [exact Hp'|].
      split; [exact Hp3' | exact Hd3'].
    + split; [exact Hd|]. split; [exact Hw|]. split; [exact Hstop|].
      split; [exact Hn|]. split; [exact Hp3|]. split; [exact Hd3 | exact Hidle].
  - destruct (Hnext w_turned (mkCmd CMD_DIR 0 0) true) as [Hcmd _].
    rewrite Hcmd. by_eval.
Defined.

(** ** The further properties on concrete runs *)


Lemma w_disabled_reachable : reachable w_disabled.
Proof.
  exact (reach_step _ _ w_started_reachable (step_cmd w_started (mkCmd CMD_EN 0 0))).
Defined.


Lemma engine_parameters_in_range_witness :
  reachable w_started /\ In set_speed (trace w_started) /\
  call set_speed = SetSpeedInHz 10000 /\ 1 <= 10000 <= 400000.
Proof.
  assert (Hin : In set_speed (trace w_started))
    by (vm_compute; right; right; left; reflexivity).
  assert (Hc : call set_speed = SetSpeedInHz 10000) by by_eval.
  destruct (engine_parameters_in_range w_started set_speed w_started_reachable Hin)
    as [Hspeed _].
  split; [exact w_started_reachable|]. split; [exact Hin|]. split; [exact Hc|].
  exact (Hspeed 10000 Hc).
Defined.

Lemma stored_values_in_range_witness :
  reachable w_turned /\
  1 <= g_userFreq (globals w_turned) <= 400000 /\
  1 <= g_accel (globals w_turned) <= 2000000 /\
  (g_dir (globals w_turned) = 0 \/ g_dir (globals w_turned) = 1) /\
  (g_en (globals w_turned) = 0 \/ g_en (globals w_turned) = 1) /\
  (g_dirNext (globals w_turned) = 0 \/ g_dirNext (globals w_turned) = 1) /\
  stepper w_turned <> None.
Proof.
  split; [exact w_turned_reachable|].
  exact (stored_values_in_range w_turned w_turned_reachable).
Defined.

Lemma run_request_implies_enabled_no_alarm_witness :
  reachable w_started /\ g_runReq (globals w_started) = true /\
  g_en (globals w_started) = 1 /\ g_alarm (globals w_started) = false.
Proof.
  assert (Hrr : g_runReq (globals w_started) = true) by by_eval.
  split; [exact w_started_reachable|]. split; [exact Hrr|].
  exact (run_request_implies_enabled_no_alarm w_started w_started_reachable Hrr).
Defined.

Lemma pins_mirror_globals_witness :
  reachable w_turned /\
  g_dir (globals w_turned) = 1 /\
  last_write PIN_EN (trace w_turned) =
    Some (if g_en (globals w_turned) =? 0 then HIGH else LOW) /\
  last_write PIN_DIR (trace w_turned) =
    Some (if g_dir (globals w_turned) =? 0 then LOW else HIGH).
Proof.
  split; [exact w_turned_reachable|]. split; [by_eval|].
  exact (pins_mirror_globals w_turned w_turned_reachable).
Defined.


Lemma reenable_never_resumes_witness :
  reachable w_disabled /\ g_en (globals w_disabled) = 0 /\ 1 <> 0 /\
  globals (exec (dispatch (mkCmd CMD_EN 1 0)) w_disabled) =
    set_en 1 (globals w_disabled) /\
  stepper (exec (dispatch (mkCmd CMD_EN 1 0)) w_disabled) = stepper w_disabled /\
  map call (trace (exec (dispatch (mkCmd CMD_EN 1 0)) w_disabled)) =
    DigitalWrite PIN_EN LOW :: map call (trace w_disabled).
Proof.
  assert (Hen : g_en (globals w_disabled) = 0) by by_eval.
  assert (Hx : 1 <> 0) by differs.
  split; [exact w_disabled_reachable|]. split; [exact Hen|]. split; [exact Hx|].
  exact (reenable_never_resumes w_disabled 1 0 w_disabled_reachable Hen Hx).
Defined.

Lemma q_tuning_starts_nothing :
  Forall (fun c => starts_motion (type c) = false) q_tuning.
Proof. repeat constructor. Defined.

Lemma stopped_until_start_or_ramp_witness :
  g_runReq (globals sim_boot) = false /\
  Forall (fun c => starts_motion (type c) = false) q_tuning /\
  g_runReq (globals (exec (StepTask_iter 0 q_tuning 10 LOW) sim_boot)) = false /\
  since (trace sim_boot) not_run
        (trace (exec (StepTask_iter 0 q_tuning 10 LOW) sim_boot)).
Proof.
  assert (Hrr : g_runReq (globals sim_boot) = false) by by_eval.
  split; [exact Hrr|]. split; [exact q_tuning_starts_nothing|].
  exact (stopped_until_start_or_ramp sim_boot 0 10 q_tuning LOW Hrr
           q_tuning_starts_nothing).
Defined.

Lemma idle_iteration_is_silent_witness :
  g_dirPend (globals w_started) = false /\
  (u32 (5 - 0) < 10 \/ readAlarm LOW = g_alarm (globals w_started)) /\
  exec (StepTask_iter 0 [] 5 LOW) w_started = w_started.
Proof.
  assert (Hp : g_dirPend (globals w_started) = false) by by_eval.
  assert (Hal : u32 (5 - 0) < 10 \/ readAlarm LOW = g_alarm (globals w_started))
    by (left; by_eval).
  split; [exact Hp|]. split; [exact Hal|].
  exact (idle_iteration_is_silent w_started 0 5 LOW Hp Hal).
Defined.

Lemma poll_period_across_wraparound_witness :
  0 <= 4294967291 < 2 ^ 32 /\ 0 <= 10 < 2 ^ 32 /\
  u32 (4294967291 + 10) = 5 /\
  pollAlarm 4294967291 (u32 (4294967291 + 10)) HIGH w_started =
  (if 10 <? 10 then (4294967291, w_started)
   else (u32 (4294967291 + 10), exec (alarmSample (readAlarm HIGH)) w_started)).
Proof.
  assert (Hl : 0 <= 4294967291 < 2 ^ 32) by (split; [differs | by_eval]).
  assert (Hd : 0 <= 10 < 2 ^ 32) by (split; [differs | by_eval]).
  split; [exact Hl|]. split; [exact Hd|]. split; [by_eval|].
  exact (poll_period_across_wraparound w_started 4294967291 10 HIGH Hl Hd).
Defined.



Lemma start_pushes_stored_parameters_witness :
  reachable sim_boot /\ stepper sim_boot = Some e_boot /\
  g_en (globals sim_boot) <> 0 /\ g_alarm (globals sim_boot) = false /\
  map call (trace (exec (dispatch (mkCmd CMD_START 0 0)) sim_boot)) =
    run_call (g_dir (globals sim_boot)) :: SetAcceleration (g_accel (globals sim_boot))
      :: SetSpeedInHz (g_userFreq (globals sim_boot)) :: map call (trace sim_boot).
Proof.
  assert (Hs : stepper sim_boot = Some e_boot) by by_eval.
  assert (Hen : g_en (globals sim_boot) <> 0) by differs.
  assert (Hal : g_alarm (globals sim_boot) = false) by by_eval.
  pose proof (start_pushes_stored_parameters sim_boot e_boot 0 0
                sim_boot_reachable Hs Hen Hal) as H.
  cbv zeta in H. destruct H as (_ & Htr & _).
  split; [exact sim_boot_reachable|]. split; [exact Hs|]. split; [exact Hen|].
  split; [exact Hal | exact Htr].
Defined.

Lemma speed_change_does_not_start_stopped_engine_witness :
  stepper sim_boot = Some e_boot /\
  (forall hz acc, isRunning (setAcceleration acc (setSpeedInHz hz e_boot)) = false) /\
  exists hz acc,
    map call (trace (exec (dispatch (mkCmd CMD_FREQ 20000 0)) sim_boot)) =
      SetAcceleration acc :: SetSpeedInHz hz :: map call (trace sim_boot) /\
    stepper (exec (dispatch (mkCmd CMD_FREQ 20000 0)) sim_boot) =
      Some (setAcceleration acc (setSpeedInHz hz e_boot)) /\
    g_runReq (globals (exec (dispatch (mkCmd CMD_FREQ 20000 0)) sim_boot)) =
      g_runReq (globals sim_boot).
Proof.
  assert (Hs : stepper sim_boot = Some e_boot) by by_eval.
  assert (Hidle : forall hz acc,
             isRunning (setAcceleration acc (setSpeedInHz hz e_boot)) = false)
    by (intros hz acc; reflexivity).
  split; [exact Hs|]. split; [exact Hidle|].
  exact (speed_change_does_not_start_stopped_engine sim_boot e_boot CMD_FREQ 20000 0
           Hs Hidle (or_introl eq_refl)).
Defined.

Lemma q_speed_has_no_enable : Forall (fun c => type c <> CMD_EN) q_speed.
Proof. repeat constructor; discriminate. Defined.

Lemma alarm_and_enable_have_one_writer_witness :
  Forall (fun c => type c <> CMD_EN) q_speed /\
  g_alarm (globals (exec (drain q_speed) w_tripped)) = g_alarm (globals w_tripped) /\
  g_en (globals (exec (drain q_speed) w_tripped)) = g_en (globals w_tripped).
Proof.
  destruct (alarm_and_enable_have_one_writer w_tripped q_speed true)
    as (Hal & Hen & _).
  split; [exact q_speed_has_no_enable|]. split; [exact Hal|].
  exact (Hen q_speed_has_no_enable).
Defined.

Lemma long_input_has_no_line_end :
  Forall (fun ch => ch <> "013"%char /\ ch <> "010"%char) long_input.
Proof.
  apply Forall_forall. intros ch Hch. apply repeat_spec in Hch. subst ch.
  split; discriminate.
Defined.

Lemma console_line_buffer_never_overflows_witness :
  (String.length String.EmptyString <= 95)%nat /\
  (String.length (fst (console_feed dec_strtoul long_input String.EmptyString)) <= 95)%nat.
Proof.
  assert (Hlen : (String.length String.EmptyString <= 95)%nat) by (cbn; lia).
  split; [exact Hlen|].
  exact (console_line_buffer_never_overflows dec_strtoul long_input String.EmptyString Hlen).
Defined.

Lemma console_overlong_line_is_truncated_witness :
  Forall (fun ch => ch <> "013"%char /\ ch <> "010"%char) long_input /\
  (String.length String.EmptyString <= 95)%nat /\
  console_feed dec_strtoul long_input String.EmptyString =
  (String.append String.EmptyString
     (String.string_of_list_ascii
        (firstn (95 - String.length String.EmptyString) long_input)),
   map Echo long_input).
Proof.
  assert (Hlen : (String.length String.EmptyString <= 95)%nat) by (cbn; lia).
  split; [exact long_input_has_no_line_end|]. split; [exact Hlen|].
  exact (console_overlong_line_is_truncated dec_strtoul long_input String.EmptyString
           long_input_has_no_line_end Hlen).
Defined.


Lemma web_requests_enqueue_in_range_witness :
  (List.length (@nil Cmd) < QUEUE_LENGTH)%nat /\
  exists c, serve dec_strtoul (ApiRamp (Some "0"%string) None) (Some []) =
              (true, Some ([] ++ [c])) /\
            payload_in_range c /\ type c <> CMD_STATUS.
Proof.
  assert (Hlt : (List.length (@nil Cmd) < QUEUE_LENGTH)%nat)
    by (vm_compute; repeat constructor).
  destruct (web_requests_enqueue_in_range dec_strtoul
              (ApiRamp (Some "0"%string) None) []) as [Hfree _].
  split; [exact Hlt | exact (Hfree Hlt)].
Defined.

Lemma console_and_web_agree_witness :
  Forall ordinary (String.list_ascii_of_string "500000"%string) /\
  Forall ordinary (String.list_ascii_of_string "10"%string) /\
  (String.length (String.append "f "%string "500000"%string) <= 95)%nat /\
  Forall (fun c => is_blank c = false) (String.list_ascii_of_string "500000"%string) /\
  skip_blanks "10"%string = "10"%string /\
  (String.length
     (String.append "ramp "%string
        (String.append "500000"%string (String.String " "%char "10"%string))) <= 95)%nat /\
  (exists c1 c2,
     console_feed dec_strtoul (typed (String.append "f "%string "500000"%string))
                  String.EmptyString =
       (String.EmptyString,
        map Echo (typed (String.append "f "%string "500000"%string)) ++
        [Send c1; Println "ok"%string]) /\
     serve dec_strtoul (ApiF (Some "500000"%string)) (Some []) = (true, Some [c2]) /\
     exec (dispatch c1) sim_boot = exec (dispatch c2) sim_boot) /\
  (exists c1 c2,
     console_feed dec_strtoul
       (typed (String.append "ramp "%string
                 (String.append "500000"%string (String.String " "%char "10"%string))))
       String.EmptyString =
       (String.EmptyString,
        map Echo
          (typed (String.append "ramp "%string
                    (String.append "500000"%string (String.String " "%char "10"%string)))) ++
        [Send c1; Println "ok"%string]) /\
     serve dec_strtoul (ApiRamp (Some "500000"%string) (Some "10"%string)) (Some []) =
       (true, Some [c2]) /\
     exec (dispatch c1) sim_boot = exec (dispatch c2) sim_boot).
Proof.
  assert (Hs : Forall ordinary (String.list_ascii_of_string "500000"%string)).
  { cbn [String.list_ascii_of_string].
    repeat (apply Forall_cons; [repeat split; discriminate|]). apply Forall_nil. }
  assert (Hs2 : Forall ordinary (String.list_ascii_of_string "10"%string)).
  { cbn [String.list_ascii_of_string].
    repeat (apply Forall_cons; [repeat split; discriminate|]). apply Forall_nil. }
  assert (Hlen : (String.length (String.append "f "%string "500000"%string) <= 95)%nat)
    by (vm_compute; repeat constructor).
  assert (Hplain : Forall (fun c => is_blank c = false)
                          (String.list_ascii_of_string "500000"%string))
    by (repeat constructor).
  assert (Hs2b : skip_blanks "10"%string = "10"%string) by by_eval.
  assert (Hlen2 : (String.length
                     (String.append "ramp "%string
                        (String.append "500000"%string
                           (String.String " "%char "10"%string))) <= 95)%nat)
    by (vm_compute; repeat constructor).
  pose proof (console_and_web_agree dec_strtoul "500000"%string "10"%string sim_boot
                Hs Hs2) as H.
  cbv zeta in H. destruct H as (Hf & _ & _ & _ & Hr).
  split; [exact Hs|]. split; [exact Hs2|]. split; [exact Hlen|].
  split; [exact Hplain|]. split; [exact Hs2b|]. split; [exact Hlen2|].
  split; [exact (Hf Hlen) | exact (Hr Hplain Hs2b Hlen2)].
Defined.

(** C6 at the bounds: SetFrequency(500000) stores 400000 and
    SetFrequency(0) stores 1; SetAcceleration(3000000) stores 2000000
    and SetAcceleration(0) stores 1. *)
Lemma set_frequency_acceleration_clamped_witness :
  g_userFreq (globals (exec (dispatch (mkCmd CMD_FREQ 500000 0)) sim_boot)) = 400000 /\
  g_userFreq (globals (exec (dispatch (mkCmd CMD_FREQ 0 0)) sim_boot)) = 1 /\
  g_accel (globals (exec (dispatch (mkCmd CMD_ACCEL 3000000 0)) sim_boot)) = 2000000 /\
  g_accel (globals (exec (dispatch (mkCmd CMD_ACCEL 0 0)) sim_boot)) = 1 /\
  g_accel (globals (exec (dispatch (mkCmd CMD_FREQ 500000 0)) sim_boot)) =
    g_accel (globals sim_boot).
Proof.
  destruct (set_frequency_acceleration_clamped sim_boot 500000 0)
    as [(Hhi & Hkeep & _) _].
  destruct (set_frequency_acceleration_clamped sim_boot 0 0) as [(Hlo & _) (Halo & _)].
  destruct (set_frequency_acceleration_clamped sim_boot 3000000 0) as [_ (Hahi & _)].
  split; [rewrite Hhi; by_eval|]. split; [rewrite Hlo; by_eval|].
  split; [rewrite Hahi; by_eval|]. split; [rewrite Halo; by_eval | exact Hkeep].
Defined.
